(** * simple-comfyUI: the generation client and the workflow engine

    A shallow embedding of the TypeScript client
    (frontend/src/lib/api-client.ts, frontend/src/lib/stores/generation-store.ts,
    frontend/src/components/GenerationForm.tsx, ProgressTracker.tsx,
    ImageGallery.tsx and frontend/src/app/page.tsx) and of the worker flow
    described in the backend walkthrough (generate_image,
    PromptEnhancementNode), followed by the properties of the specification
    that concern them and by further properties of the client.

    Layout: definitions first (client, then engine), theorems afterwards. *)

From Stdlib Require Import ZArith QArith Lia List String Ascii Sorted DecimalString.
From stdpp Require Import gmap strings list sorting.
Import ListNotations.

(** ** JavaScript values *)

(** A JavaScript string is a sequence of UTF-16 code units. *)
Definition jsstring := list N.

(** An ASCII literal of the source as a JavaScript string. *)
Definition js (s : string) : jsstring := map N_of_ascii (list_ascii_of_string s).

(** The dynamically typed values that travel through argument lists and JSON
    bodies.  Numbers of the form are multiples of 1/2 well inside the exactly
    representable range of a double, hence rationals. *)
#[warnings="-register-all"]
Inductive jsval : Type :=
| JUndefined
| JNull
| JNumber (q : Q)
| JString (s : jsstring)
| JObject (fields : list (string * jsval)).

(** Positional parameter binding: a parameter with no argument is [undefined],
    surplus arguments are dropped. *)
Definition arg (i : nat) (args : list jsval) : jsval := nth i args JUndefined.

Definition is_undefined (v : jsval) : bool :=
  match v with JUndefined => true | _ => false end.

(** [JSON.stringify]: a property whose value is [undefined] is left out of the
    serialised object, at every depth. *)
Fixpoint stringify (v : jsval) : jsval :=
  match v with
  | JObject fields =>
      JObject
        ((fix props (l : list (string * jsval)) : list (string * jsval) :=
            match l with
            | [] => []
            | (k, x) :: rest =>
                if is_undefined x then props rest else (k, stringify x) :: props rest
            end) fields)
  | _ => v
  end.

Definition keys (v : jsval) : list string :=
  match v with JObject fields => map fst fields | _ => [] end.

Fixpoint assoc (k : string) (fields : list (string * jsval)) : option jsval :=
  match fields with
  | [] => None
  | (k', x) :: rest => if String.eqb k k' then Some x else assoc k rest
  end.

(** Thrown values: an [Error] instance with its message (also TypeError and
    SyntaxError), or any other value a promise was rejected with. *)
Inductive Exn : Type :=
| Error (message : jsstring)
| Thrown (v : jsval).

(** Property read [v.k]: [undefined] when absent, a TypeError on [null] and
    [undefined]. *)
Definition get_prop (k : string) (v : jsval) : Exn + jsval :=
  match v with
  | JObject fields => inr (default JUndefined (assoc k fields))
  | JUndefined | JNull => inl (Error (js "Cannot read properties"))
  | _ => inr JUndefined
  end.

(** Truthiness, as used by [if (jobId)] and [formData.seed && ...]. *)
Definition truthy (v : jsval) : bool :=
  match v with
  | JUndefined | JNull => false
  | JNumber q => negb (Qeq_bool q 0)
  | JString s => negb (bool_decide (s = []))
  | JObject _ => true
  end.

(** ECMAScript WhiteSpace and LineTerminator code units, the characters
    [String.prototype.trim] strips. *)
Definition is_white_space (c : N) : bool :=
  (bool_decide (c ∈ [9; 10; 11; 12; 13; 32; 160; 5760; 8232; 8233; 8239; 8287; 12288; 65279]%N)
   || ((8192 <=? c) && (c <=? 8202))%N)%bool.

Fixpoint trimStart (s : jsstring) : jsstring :=
  match s with
  | c :: rest => if is_white_space c then trimStart rest else s
  | [] => []
  end.

Definition trim (s : jsstring) : jsstring := rev (trimStart (rev (trimStart s))).

(** ** api-client.ts *)

Module Api.

Record Template := {
  id : jsstring;
  name : jsstring;
  description : jsstring;
  category : jsstring
}.

(** The declared union of [GenerationJob.status]. *)
Inductive JobStatus :=
| Pending | Running | Completed | Failed | Processing | Queued | Cancelled.

Record JobResult := {
  result_id : jsstring;
  image_url : jsstring;
  thumbnail_url : option jsstring
}.

Record GenerationJob := {
  job_id : jsstring;
  status : JobStatus;
  progress : Q;
  prompt : jsstring;
  results : option (list JobResult);
  error_details : option jsstring;
  queue_position : option Q
}.

Inductive Method := GET | POST | DELETE.

Inductive Endpoint :=
| Templates
| Generate
| JobStatusOf (jobId : jsval)
| History
| JobOf (jobId : jsval).

Record Request := {
  method : Method;
  endpoint : Endpoint;
  body : option jsval
}.

(** What [fetch] resolves to; [json] is [None] when the body does not parse. *)
Record Response := {
  ok : bool;
  statusText : jsstring;
  json : option jsval
}.

(** A call: the requests it put on the wire and what it returned or threw. *)
Record Call (A : Type) := {
  sent : list Request;
  returned : Exn + A
}.
Arguments sent {A} _.
Arguments returned {A} _.

Section WithBackend.
(** The backend: a network failure or a response, per request. *)
Variable fetch : Request -> Exn + Response.

(** [async submitGeneration(prompt, templateId, parameters)] *)
Definition submitGeneration (args : list jsval) : Call jsval :=
  let prompt := arg 0 args in
  let templateId := arg 1 args in
  let parameters := arg 2 args in
  let request :=
    {| method := POST;
       endpoint := Generate;
       body := Some (stringify (JObject [("template_id", templateId);
                                         ("prompt", prompt);
                                         ("parameters", parameters)])) |} in
  {| sent := [request];
     returned :=
       match fetch request with
       | inl e => inl e
       | inr response =>
           if negb (ok response)
           then inl (Error (js "Failed to submit generation: " ++ statusText response))
           else match json response with
                | None => inl (Error (js "Unexpected token"))
                | Some result => get_prop "job_id" result
                end
       end |}.

(** [async cancelJob(jobId)] *)
Definition cancelJob (jobId : jsval) : Call unit :=
  let request := {| method := DELETE; endpoint := JobOf jobId; body := None |} in
  {| sent := [request];
     returned :=
       match fetch request with
       | inl e => inl e
       | inr response =>
           if negb (ok response)
           then inl (Error (js "Failed to cancel job: " ++ statusText response))
           else inr tt
       end |}.

(** The shape the three reading calls share: one GET, an [Error] with the
    call's own prefix on a response that is not ok, the parsed body otherwise. *)
Definition get_json (target : Endpoint) (failure : string) : Call jsval :=
  let request := {| method := GET; endpoint := target; body := None |} in
  {| sent := [request];
     returned :=
       match fetch request with
       | inl e => inl e
       | inr response =>
           if negb (ok response)
           then inl (Error (js failure ++ statusText response))
           else match json response with
                | None => inl (Error (js "Unexpected token"))
                | Some result => inr result
                end
       end |}.

(** [async fetchTemplates()] *)
Definition fetchTemplates : Call jsval :=
  get_json Templates "Failed to fetch templates: ".

(** [async getJob(jobId)] *)
Definition getJob (jobId : jsval) : Call jsval :=
  get_json (JobStatusOf jobId) "Failed to fetch job: ".

(** [async getJobs()] *)
Definition getJobs : Call jsval :=
  get_json History "Failed to fetch jobs: ".
End WithBackend.

(** The request [submitGeneration] builds from its arguments. *)
Definition generate_request (args : list jsval) : Request :=
  {| method := POST; endpoint := Generate;
     body := Some (stringify (JObject [("template_id", arg 1 args);
                                       ("prompt", arg 0 args);
                                       ("parameters", arg 2 args)])) |}.

End Api.

(** ** stores/generation-store.ts *)

Module Store.
Import Api.

Record GenerationState := {
  templates : list Template;
  selectedTemplate : option Template;
  isLoading : bool;
  error : option jsstring;
  jobs : list GenerationJob;
  currentJob : option GenerationJob
}.

Definition initial : GenerationState :=
  {| templates := []; selectedTemplate := None; isLoading := false;
     error := None; jobs := []; currentJob := None |}.

(** The partial updates [set({...})] performs. *)
Definition set_loading (b : bool) (e : option jsstring) (st : GenerationState) :=
  {| templates := templates st; selectedTemplate := selectedTemplate st;
     isLoading := b; error := e; jobs := jobs st; currentJob := currentJob st |}.

Definition set_isLoading (b : bool) (st : GenerationState) :=
  {| templates := templates st; selectedTemplate := selectedTemplate st;
     isLoading := b; error := error st; jobs := jobs st; currentJob := currentJob st |}.

Definition set_jobs (js : list GenerationJob) (st : GenerationState) :=
  {| templates := templates st; selectedTemplate := selectedTemplate st;
     isLoading := isLoading st; error := error st; jobs := js; currentJob := currentJob st |}.

Definition set_currentJob (j : GenerationJob) (st : GenerationState) :=
  {| templates := templates st; selectedTemplate := selectedTemplate st;
     isLoading := isLoading st; error := error st; jobs := jobs st; currentJob := Some j |}.

(** [error instanceof Error ? error.message : fallback] *)
Definition message_or (fallback : string) (e : Exn) : jsstring :=
  match e with
  | Error message => message
  | Thrown _ => js fallback
  end.

(** [fetchJobs]: a failed fetch is logged and leaves the state alone. *)
Definition fetchJobs (history : Exn + list GenerationJob) (st : GenerationState) :=
  match history with
  | inr js => set_jobs js st
  | inl _ => st
  end.

(** The status test that keeps [pollJob] going. *)
Definition keeps_polling (s : JobStatus) : bool :=
  match s with Pending | Running => true | _ => false end.

Record Polled := {
  store : GenerationState;
  fetches : nat;
  stopped : bool
}.

(** [pollJob], run against the successive answers of [apiClient.getJob(jobId)]
    (one per timer tick).  [stopped] tells whether the loop ended by itself
    within the given answers; [fetches] counts the polls made. *)
Fixpoint pollJob (history : Exn + list GenerationJob)
    (answers : list (Exn + GenerationJob)) (st : GenerationState) : Polled :=
  match answers with
  | [] => {| store := st; fetches := 0; stopped := false |}
  | inl _ :: _ =>
      {| store := set_isLoading false st; fetches := 1; stopped := true |}
  | inr job :: later =>
      let st1 := set_currentJob job st in
      if keeps_polling (status job)
      then let r := pollJob history later st1 in
           {| store := store r; fetches := S (fetches r); stopped := stopped r |}
      else {| store := fetchJobs history (set_isLoading false st1);
              fetches := 1; stopped := true |}
  end.

(** An answer that ends the poll loop: a failed fetch, or a job whose status
    is neither pending nor running. *)
Definition stops (answer : Exn + GenerationJob) : bool :=
  match answer with
  | inl _ => true
  | inr job => negb (keeps_polling (status job))
  end.

(** The last job among answers, if any was a job. *)
Definition last_job (answers : list (Exn + GenerationJob)) (before : option GenerationJob)
  : option GenerationJob :=
  fold_left (fun cur a => match a with inr job => Some job | inl _ => cur end) answers before.

Section WithBackend.
Variable fetch : Request -> Exn + Response.

(** [submitGeneration: async (prompt, parameters) => ...]; the state returned
    is the one at the moment the promise resolves, the poll loop it starts
    runs afterwards (see [pollJob]). *)
Definition submitGeneration (args : list jsval) (st : GenerationState)
  : GenerationState * Call jsval :=
  let prompt := arg 0 args in
  let parameters := arg 1 args in
  let st1 := set_loading true None st in
  let call := Api.submitGeneration fetch [prompt; parameters] in
  match returned call with
  | inr jobId => (st1, {| sent := sent call; returned := inr jobId |})
  | inl e =>
      (set_loading false (Some (message_or "Failed to submit generation" e)) st1,
       {| sent := sent call; returned := inr JNull |})
  end.
End WithBackend.

(** [fetchTemplates] against the answer of [apiClient.fetchTemplates()]: the
    state while the request is out, and the state when it has come back. *)
Definition fetchTemplates_pending (st : GenerationState) : GenerationState :=
  set_loading true None st.

Definition fetchTemplates (answer : Exn + list Template) (st : GenerationState)
  : GenerationState :=
  let st1 := fetchTemplates_pending st in
  match answer with
  | inr ts =>
      {| templates := ts; selectedTemplate := selectedTemplate st1;
         isLoading := false; error := error st1; jobs := jobs st1;
         currentJob := currentJob st1 |}
  | inl e => set_loading false (Some (message_or "Failed to fetch templates" e)) st1
  end.

(** [selectTemplate(template)] *)
Definition selectTemplate (template : Template) (st : GenerationState) : GenerationState :=
  {| templates := templates st; selectedTemplate := Some template;
     isLoading := isLoading st; error := error st; jobs := jobs st;
     currentJob := currentJob st |}.

(** [clearError()] *)
Definition clearError (st : GenerationState) : GenerationState :=
  {| templates := templates st; selectedTemplate := selectedTemplate st;
     isLoading := isLoading st; error := None; jobs := jobs st;
     currentJob := currentJob st |}.

(** [j.id === jobId ? job : j] *)
Definition replace_by (jobId : jsstring) (job j : GenerationJob) : GenerationJob :=
  if bool_decide (job_id j = jobId) then job else j.

(** [fetchJobStatus(jobId)] against the answer of [apiClient.getJob(jobId)]. *)
Definition fetchJobStatus (answer : Exn + GenerationJob) (jobId : jsstring)
    (st : GenerationState) : GenerationState :=
  match answer with
  | inl _ => st
  | inr job =>
      let updatedJobs :=
        map (replace_by jobId job) (jobs st) in
      let st1 := set_jobs updatedJobs st in
      match currentJob st1 with
      | Some c => if bool_decide (job_id c = jobId) then set_currentJob job st1 else st1
      | None => st1
      end
  end.

(** What a component finds under a name of the object [useGenerationStore()]
    returns: one of the six fields of the state, one of its six actions, or
    undefined under any other name. *)
Inductive StoreValue :=
| TemplatesValue (templates : list Template)
| TemplateValue (template : option Template)
| BooleanValue (b : bool)
| MessageValue (message : option jsstring)
| JobsValue (jobs : list GenerationJob)
| JobValue (job : option GenerationJob)
| ActionValue
| UndefinedValue.

Definition actions : list string :=
  ["fetchTemplates"; "selectTemplate"; "submitGeneration"; "fetchJobs"; "fetchJobStatus";
   "clearError"].

Definition useGenerationStore (st : GenerationState) (name : string) : StoreValue :=
  if String.eqb name "templates" then TemplatesValue (templates st)
  else if String.eqb name "selectedTemplate" then TemplateValue (selectedTemplate st)
  else if String.eqb name "isLoading" then BooleanValue (isLoading st)
  else if String.eqb name "error" then MessageValue (error st)
  else if String.eqb name "jobs" then JobsValue (jobs st)
  else if String.eqb name "currentJob" then JobValue (currentJob st)
  else if existsb (String.eqb name) actions then ActionValue
  else UndefinedValue.

End Store.

(** ** components/GenerationForm.tsx *)

Module Form.
Import Api.

Record FormData := {
  prompt : jsstring;
  negativePrompt : jsstring;
  width : Q;
  height : Q;
  numImages : Q;
  steps : Q;
  cfgScale : Q;
  seed : option Q
}.

Record Preset := {
  label : jsstring;
  preset_width : Q;
  preset_height : Q;
  value : jsstring
}.

Definition RESOLUTION_PRESETS : list Preset :=
  [ {| label := js "Square (1:1)"; preset_width := 1024; preset_height := 1024; value := js "1024x1024" |};
    {| label := js "Portrait (3:4)"; preset_width := 768; preset_height := 1024; value := js "768x1024" |};
    {| label := js "Landscape (4:3)"; preset_width := 1024; preset_height := 768; value := js "1024x768" |};
    {| label := js "Wide (16:9)"; preset_width := 1024; preset_height := 576; value := js "1024x576" |};
    {| label := js "Tall (9:16)"; preset_width := 576; preset_height := 1024; value := js "576x1024" |} ].

(** [useState<FormData>({...})] *)
Definition initialForm : FormData :=
  {| prompt := []; negativePrompt := []; width := 1024; height := 1024;
     numImages := 1; steps := 50; cfgScale := 7.5; seed := None |}.

(** The (field, value) pairs the widgets hand to [handleInputChange]. *)
Inductive Change :=
| SetPrompt (v : jsstring)
| SetNegativePrompt (v : jsstring)
| SetWidth (v : Q)
| SetHeight (v : Q)
| SetNumImages (v : Q)
| SetSteps (v : Q)
| SetCfgScale (v : Q)
| SetSeed (v : option Q).

(** [setFormData(prev => ({...prev, [field]: value}))] *)
Definition handleInputChange (c : Change) (prev : FormData) : FormData :=
  match c with
  | SetPrompt v =>
      {| prompt := v; negativePrompt := negativePrompt prev; width := width prev;
         height := height prev; numImages := numImages prev; steps := steps prev;
         cfgScale := cfgScale prev; seed := seed prev |}
  | SetNegativePrompt v =>
      {| prompt := prompt prev; negativePrompt := v; width := width prev;
         height := height prev; numImages := numImages prev; steps := steps prev;
         cfgScale := cfgScale prev; seed := seed prev |}
  | SetWidth v =>
      {| prompt := prompt prev; negativePrompt := negativePrompt prev; width := v;
         height := height prev; numImages := numImages prev; steps := steps prev;
         cfgScale := cfgScale prev; seed := seed prev |}
  | SetHeight v =>
      {| prompt := prompt prev; negativePrompt := negativePrompt prev; width := width prev;
         height := v; numImages := numImages prev; steps := steps prev;
         cfgScale := cfgScale prev; seed := seed prev |}
  | SetNumImages v =>
      {| prompt := prompt prev; negativePrompt := negativePrompt prev; width := width prev;
         height := height prev; numImages := v; steps := steps prev;
         cfgScale := cfgScale prev; seed := seed prev |}
  | SetSteps v =>
      {| prompt := prompt prev; negativePrompt := negativePrompt prev; width := width prev;
         height := height prev; numImages := numImages prev; steps := v;
         cfgScale := cfgScale prev; seed := seed prev |}
  | SetCfgScale v =>
      {| prompt := prompt prev; negativePrompt := negativePrompt prev; width := width prev;
         height := height prev; numImages := numImages prev; steps := steps prev;
         cfgScale := v; seed := seed prev |}
  | SetSeed v =>
      {| prompt := prompt prev; negativePrompt := negativePrompt prev; width := width prev;
         height := height prev; numImages := numImages prev; steps := steps prev;
         cfgScale := cfgScale prev; seed := v |}
  end.

(** [handleResolutionChange(value)] *)
Definition handleResolutionChange (v : jsstring) (prev : FormData) : FormData :=
  match find (fun p => bool_decide (value p = v)) RESOLUTION_PRESETS with
  | Some preset =>
      handleInputChange (SetHeight (preset_height preset))
        (handleInputChange (SetWidth (preset_width preset)) prev)
  | None => prev
  end.

(** What the user can do to the form between submissions. *)
Inductive Event :=
| PromptInput (v : jsstring)
| NegativePromptInput (v : jsstring)
| ResolutionSelect (v : jsstring)
| NumImagesSlide (raw : Q)
| StepsSlide (raw : Q)
| CfgScaleSlide (raw : Q)
| SeedInput (v : option Q).

Section WithSlider.
(** The [Slider] of ./ui/slider is not among the sources: [slider min max raw]
    stands for the value its [onValueChange] reports when the pointer is at
    [raw] on a track from [min] to [max]. *)
Variable slider : Q -> Q -> Q -> Q.

(** The [onChange] and [onValueChange] handlers of the widgets. *)
Definition on_event (e : Event) (f : FormData) : FormData :=
  match e with
  | PromptInput v => handleInputChange (SetPrompt v) f
  | NegativePromptInput v => handleInputChange (SetNegativePrompt v) f
  | ResolutionSelect v => handleResolutionChange v f
  | NumImagesSlide raw => handleInputChange (SetNumImages (slider 1 4 raw)) f
  | StepsSlide raw => handleInputChange (SetSteps (slider 10 150 raw)) f
  | CfgScaleSlide raw => handleInputChange (SetCfgScale (slider 1 20 raw)) f
  | SeedInput v => handleInputChange (SetSeed v) f
  end.
End WithSlider.

(** What is assumed of the slider component: it reports values between its
    [min] and [max] only. *)
Definition reports_within_track (slider : Q -> Q -> Q -> Q) : Prop :=
  forall min max raw : Q, (min <= max)%Q -> (min <= slider min max raw <= max)%Q.

(** A slider that clamps the pointer position to its track. *)
Definition clamp (min max raw : Q) : Q :=
  if Qle_bool raw min then min else if Qle_bool max raw then max else raw.

Inductive Toast := NoTemplateSelected | PromptRequired | GenerationStarted.

Record Submitted := {
  toast : option Toast;
  dispatched : option (list jsval);
  wire : list Request;
  form : FormData;
  store : Store.GenerationState
}.

(** The [parameters] object literal of [handleSubmit]. *)
Definition parameters_of (formData : FormData) : jsval :=
  JObject ([("width", JNumber (width formData));
            ("height", JNumber (height formData));
            ("num_images", JNumber (numImages formData));
            ("steps", JNumber (steps formData));
            ("cfg_scale", JNumber (cfgScale formData));
            ("negative_prompt", JString (negativePrompt formData))]
           ++ match seed formData with
              | Some s => if truthy (JNumber s) then [("seed", JNumber s)] else []
              | None => []
              end).

Section WithBackend.
Variable fetch : Request -> Exn + Response.

(** [handleSubmit], from the props' [template], the form and the store. *)
Definition handleSubmit (template : option Template) (formData : FormData)
    (st : Store.GenerationState) : Submitted :=
  match template with
  | None =>
      {| toast := Some NoTemplateSelected; dispatched := None; wire := [];
         form := formData; store := st |}
  | Some template =>
      if negb (truthy (JString (trim (prompt formData))))
      then {| toast := Some PromptRequired; dispatched := None; wire := [];
              form := formData; store := st |}
      else
        let parameters := parameters_of formData in
        let args := [JString (prompt formData); JString (id template); parameters] in
        let '(st1, call) := Store.submitGeneration fetch args st in
        match returned call with
        | inr jobId =>
            if truthy jobId
            then {| toast := Some GenerationStarted; dispatched := Some args;
                    wire := sent call;
                    form := handleInputChange (SetSeed None)
                              (handleInputChange (SetNegativePrompt [])
                                 (handleInputChange (SetPrompt []) formData));
                    store := st1 |}
            else {| toast := None; dispatched := Some args; wire := sent call;
                    form := formData; store := st1 |}
        | inl _ =>
            {| toast := None; dispatched := Some args; wire := sent call;
               form := formData; store := st1 |}
        end
  end.
End WithBackend.

(** The bounds of the three sliders. *)
Definition in_ranges (f : FormData) : Prop :=
  (1 <= numImages f <= 4 /\ 10 <= steps f <= 150 /\ 1 <= cfgScale f <= 20)%Q.

Definition number_field (k : string) (v : jsval) : option Q :=
  match v with
  | JObject fields =>
      match assoc k fields with
      | Some (JNumber q) => Some q
      | _ => None
      end
  | _ => None
  end.

(** The same bounds on a [parameters] object as it is handed to the store. *)
Definition parameters_in_ranges (parameters : jsval) : Prop :=
  exists n s c : Q,
    number_field "num_images" parameters = Some n
    /\ number_field "steps" parameters = Some s
    /\ number_field "cfg_scale" parameters = Some c
    /\ (1 <= n <= 4 /\ 10 <= s <= 150 /\ 1 <= c <= 20)%Q.

(** The form states the component can be in, with a given slider. *)
Inductive reachable (slider : Q -> Q -> Q -> Q) : FormData -> Prop :=
| reach_initial : reachable slider initialForm
| reach_event e f : reachable slider f -> reachable slider (on_event slider e f)
| reach_submit fetch template st f :
    reachable slider f -> reachable slider (form (handleSubmit fetch template f st)).

(** [disabled={isLoading || !formData.prompt.trim()}] of the submit button. *)
Definition submit_disabled (isLoading : bool) (formData : FormData) : bool :=
  isLoading || negb (truthy (JString (trim (prompt formData)))).

(** What the component renders: the placeholder while no template is selected
    ([if (!template) return ...]), the form with its submit button otherwise. *)
Inductive Rendered :=
| SelectATemplate
| FormFor (template : Template) (button_disabled : bool).

Definition render (template : option Template) (isLoading : bool) (formData : FormData)
  : Rendered :=
  match template with
  | None => SelectATemplate
  | Some template => FormFor template (submit_disabled isLoading formData)
  end.

(** The pair a preset stands for. *)
Definition dimensions (p : Preset) : Q * Q := (preset_width p, preset_height p).

End Form.

(** ** components/ProgressTracker.tsx *)

Module Tracker.
Import Api.

(** A template literal of a whole number; [None] stands for NaN.  Timestamps
    are whole milliseconds of a valid [Date], far below the magnitude at which
    a number prints with an exponent. *)
Definition number_to_string (n : option Z) : jsstring :=
  match n with
  | Some z => js (NilZero.string_of_int (Z.to_int z))
  | None => js "NaN"
  end.

(** [a < b]; false when [a] is NaN. *)
Definition less_than (a : option Z) (b : Z) : bool :=
  match a with
  | Some x => (x <? b)%Z
  | None => false
  end.

(** [Math.floor(a / b)] for a positive whole [b]. *)
Definition floor_div (a : option Z) (b : Z) : option Z := (fun x => (x / b)%Z) <$> a.

(** [formatTimeAgo(dateString)]: [now] is [new Date().getTime()], [date] is
    [new Date(dateString).getTime()], NaN when the string is no date. *)
Definition formatTimeAgo (now : Z) (date : option Z) : jsstring :=
  let diff := (fun d => (now - d)%Z) <$> date in
  let minutes := floor_div diff (1000 * 60) in
  if less_than minutes 1 then js "just now"
  else if less_than minutes 60 then number_to_string minutes ++ js "m ago"
  else
    let hours := floor_div minutes 60 in
    if less_than hours 24 then number_to_string hours ++ js "h ago"
    else
      let days := floor_div hours 24 in
      number_to_string days ++ js "d ago".




(** [result.thumbnail_url || result.image_url] *)
Definition src (result : JobResult) : jsstring :=
  match thumbnail_url result with
  | Some t => if truthy (JString t) then t else image_url result
  | None => image_url result
  end.

(** The value of [job.queue_position && job.queue_position > 0 && <p>...</p>]
    as a child: nothing for undefined and for false, the number itself when
    the first operand is a falsy number, the line otherwise. *)
Inductive QueueLine :=
| NoQueueLine
| BareNumber (n : Q)
| Position (n : Q).

Definition queue_line (queue_position : option Q) : QueueLine :=
  match queue_position with
  | None => NoQueueLine
  | Some q =>
      if negb (truthy (JNumber q)) then BareNumber q
      else if negb (Qle_bool q 0) then Position q
      else NoQueueLine
  end.

(** The part of a [JobProgressCard] below its header. *)
Inductive Body :=
| ProgressBar (label : jsstring) (percent : Q) (queue : QueueLine)
| ResultsGrid (count : nat) (plural : bool) (thumbnails : list jsstring)
| GenerationFailed (details : option jsstring)
| NoBody.

Definition in_progress (s : JobStatus) : bool :=
  match s with
  | Processing | Queued => true
  | _ => false
  end.

Definition JobProgressCard (job : GenerationJob) : Body :=
  if in_progress (status job)
  then ProgressBar (match status job with Queued => js "Queued" | _ => js "Processing" end)
         (progress job) (queue_line (queue_position job))
  else
    match status job, results job with
    | Completed, Some results =>
        ResultsGrid (length results) (1 <? length results) (src <$> take 4 results)
    | Failed, _ =>
        GenerationFailed
          (match error_details job with
           | Some d => if truthy (JString d) then Some d else None
           | None => None
           end)
    | _, _ => NoBody
    end.

(** [ProgressTracker]: the placeholder without jobs, one card per job otherwise. *)
Definition ProgressTracker (jobs : list GenerationJob) : option (list Body) :=
  match jobs with
  | [] => None
  | _ => Some (JobProgressCard <$> jobs)
  end.

End Tracker.

(** ** components/ImageGallery.tsx *)

Module Gallery.
Import Api.

(** The callback of the filter, [job => job.status === 'completed' &&
    job.results && job.results.length > 0]. *)
Definition has_images (job : GenerationJob) : bool :=
  match status job, results job with
  | Completed, Some (_ :: _) => true
  | _, _ => false
  end.

(** [array.slice(from, to)] for indices within the non-negative range. *)
Definition slice {A} (from to : nat) (l : list A) : list A := take (to - from) (drop from l).

Record Card := {
  primary : jsstring;
  badge : option nat;
  additional : list jsstring
}.

(** [GenerationCard]: null without results, else the first image, the
    [+{length - 1}] badge and up to three more images. *)
Definition GenerationCard (job : GenerationJob) : option Card :=
  match results job with
  | None | Some [] => None
  | Some ((primaryResult :: _) as results) =>
      let hasMultipleImages := 1 <? length results in
      Some {| primary := Tracker.src primaryResult;
              badge := if hasMultipleImages then Some (length results - 1) else None;
              additional := if hasMultipleImages
                            then Tracker.src <$> slice 1 4 results else [] |}
  end.

(** What [ImageGallery] returns: the placeholder, or the gallery with its
    count, the plural of its caption and one card per listed job. *)
Inductive View :=
| NoImagesYet
| YourGallery (count : nat) (plural : bool) (cards : list (option Card)).

(** [ImageGallery]: [jobHistory] is read from the store and filtered before
    anything is returned.  [filter] on undefined, on null or on a value that
    has no such method throws a TypeError; an array of templates has no
    element with a status. *)
Definition ImageGallery (st : Store.GenerationState) : Exn + View :=
  match Store.useGenerationStore st "jobHistory" with
  | Store.JobsValue jobHistory =>
      match List.filter has_images jobHistory with
      | [] => inr NoImagesYet
      | completedJobs =>
          inr (YourGallery (length completedJobs) (1 <? length completedJobs)
                 (GenerationCard <$> completedJobs))
      end
  | Store.TemplatesValue _ => inr NoImagesYet
  | _ => inl (Error (js "TypeError: jobHistory.filter"))
  end.

End Gallery.

(** ** app/page.tsx *)

Module Page.
Import Api.

(** [String.prototype.includes] *)
Fixpoint startsWith (s searchString : jsstring) : bool :=
  match searchString, s with
  | [], _ => true
  | _ :: _, [] => false
  | p :: ps, c :: cs => (p =? c)%N && startsWith cs ps
  end.

Fixpoint includes (s searchString : jsstring) : bool :=
  startsWith s searchString
  || match s with
     | [] => false
     | _ :: rest => includes rest searchString
     end.

(** The order of [Array.prototype.sort] without a comparator: strings by
    their code units. *)
Fixpoint code_unit_le (a b : jsstring) : bool :=
  match a, b with
  | [], _ => true
  | _ :: _, [] => false
  | x :: a', y :: b' => (x <? y)%N || ((x =? y)%N && code_unit_le a' b')
  end.

Definition code_unit_order (a b : jsstring) : Prop := code_unit_le a b = true.

#[global] Instance code_unit_order_dec : RelDecision code_unit_order :=
  fun a b => decide (code_unit_le a b = true).

Definition sort (l : list jsstring) : list jsstring := merge_sort code_unit_order l.

(** [Array.from(new Set(l))]: the first occurrence of each value, in order. *)
Fixpoint unique (seen l : list jsstring) : list jsstring :=
  match l with
  | [] => []
  | x :: rest =>
      if bool_decide (x ∈ seen) then unique seen rest else x :: unique (x :: seen) rest
  end.

(** [Array.from(new Set(templates.map(t => t.category))).sort()] *)
Definition categories (templates : list Template) : list jsstring :=
  sort (unique [] (category <$> templates)).

Section WithCaseMapping.
(** [String.prototype.toLowerCase], Unicode's case mapping. *)
Variable toLowerCase : jsstring -> jsstring.

Definition matchesSearch (searchTerm : jsstring) (template : Template) : bool :=
  includes (toLowerCase (name template)) (toLowerCase searchTerm)
  || includes (toLowerCase (description template)) (toLowerCase searchTerm).

Definition matchesCategory (selectedCategory : option jsstring) (template : Template) : bool :=
  match selectedCategory with
  | None => true
  | Some c => negb (truthy (JString c)) || bool_decide (category template = c)
  end.

Definition filteredTemplates (templates : list Template) (searchTerm : jsstring)
    (selectedCategory : option jsstring) : list Template :=
  List.filter (fun template =>
                 matchesSearch searchTerm template && matchesCategory selectedCategory template)
    templates.

(** The templates grid of the page. *)
Inductive Grid :=
| Skeletons (n : nat)
| ErrorPanel (message : jsstring)
| NoTemplatesFound (clear_search : bool)
| Cards (cards : list (Template * bool)).

(** [selectedTemplate?.id === template.id] *)
Definition isSelected (selectedTemplate : option Template) (template : Template) : bool :=
  match selectedTemplate with
  | Some s => bool_decide (id s = id template)
  | None => false
  end.

Definition grid (st : Store.GenerationState) (searchTerm : jsstring)
    (selectedCategory : option jsstring) : Grid :=
  if Store.isLoading st then Skeletons 6
  else
    match Store.error st with
    | Some e =>
        if truthy (JString e) then ErrorPanel e
        else
          match filteredTemplates (Store.templates st) searchTerm selectedCategory with
          | [] => NoTemplatesFound (truthy (JString searchTerm))
          | shown => Cards ((fun t => (t, isSelected (Store.selectedTemplate st) t)) <$> shown)
          end
    | None =>
        match filteredTemplates (Store.templates st) searchTerm selectedCategory with
        | [] => NoTemplatesFound (truthy (JString searchTerm))
        | shown => Cards ((fun t => (t, isSelected (Store.selectedTemplate st) t)) <$> shown)
        end
    end.
End WithCaseMapping.

(** A case mapping for the letters of ASCII. *)
Definition ascii_lower (s : jsstring) : jsstring :=
  (fun c => if ((65 <=? c) && (c <=? 90))%N then (c + 32)%N else c) <$> s.

End Page.

(** ** The prompt-augmentation step (PromptEnhancementNode) *)

Module PromptEnhancementNode.

(** [sep.join(items)] *)
Fixpoint join (sep : string) (items : list string) : string :=
  match items with
  | [] => ""
  | x :: rest =>
      match rest with
      | [] => x
      | _ :: _ => x +:+ sep +:+ join sep rest
      end
  end.

(** [execute]: the mapping the node returns for a base prompt, the style
    prompts of the template and its negative prompt. *)
Definition execute (base_prompt : string) (style_prompts : list string)
    (negative_prompt : string) : gmap string string :=
  let enhanced_prompt := base_prompt +:+ ", " +:+ join ", " style_prompts in
  <["enhanced_prompt" := enhanced_prompt]>
    (<["negative_prompt" := negative_prompt]>
       (<["original_prompt" := base_prompt]> ∅)).

(** The composition as the specification words it: the base prompt, then a
    comma and a space, then the style prompts separated likewise. *)
Definition augmented (base_prompt : string) (style_prompts : list string) : string :=
  base_prompt +:+ ", " +:+ String.concat ", " style_prompts.

End PromptEnhancementNode.

(** ** The workflow engine and the worker *)

Module Engine.

(** Named values: prompts, serialised parameters, artifact references. *)
Abbreviation Artifacts := (gmap string string).

(** Modelled from the spec: the data model of the workflow engine (the engine
    is not among the sources): step specifications, templates with their
    ordered pipeline, compiled nodes with their edges. *)
Record StepSpec := {
  step_type : string;
  parameters : Artifacts;
  declared_inputs : list string;
  declared_outputs : list string
}.

Record Template := {
  id : string;
  name : string;
  category : string;
  pipeline : list StepSpec
}.

Record StepNode := {
  step_id : nat;
  spec : StepSpec;
  predecessors : list nat;
  successors : list nat
}.

Definition seed_namespace : list string := ["prompt"; "parameters"].

Inductive CompileError :=
| UnknownInput (stepId : nat) (name : string)
| DuplicateOutput (name : string).

(** Modelled from the spec: the Pipeline Compiler (the workflow engine is not
    among the sources).  Input resolution: every declared input is looked up
    in the seed namespace and in the declared outputs of the earlier steps. *)
Fixpoint resolve_inputs (i : nat) (earlier : list string) (steps : list StepSpec)
  : option CompileError :=
  match steps with
  | [] => None
  | s :: rest =>
      match find (fun x => negb (bool_decide (x ∈ seed_namespace ++ earlier)))
                 (declared_inputs s) with
      | Some x => Some (UnknownInput i x)
      | None => resolve_inputs (S i) (earlier ++ declared_outputs s) rest
      end
  end.

(** Modelled from the spec: the collision check of the Pipeline Compiler, an
    output name that was already produced earlier. *)
Fixpoint first_duplicate (produced : list string) (outputs : list string)
  : option string :=
  match outputs with
  | [] => None
  | x :: rest =>
      if bool_decide (x ∈ produced) then Some x
      else first_duplicate (produced ++ [x]) rest
  end.

Definition all_outputs (steps : list StepSpec) : list string :=
  concat (map declared_outputs steps).

Definition producer_of (x : string) (earlier : list StepSpec) : option nat :=
  fst <$> list_find (fun s => x ∈ declared_outputs s) earlier.

Definition build_nodes (steps : list StepSpec) : list StepNode :=
  imap (fun i s =>
          {| step_id := i; spec := s;
             predecessors :=
               remove_dups (omap (fun x => producer_of x (take i steps)) (declared_inputs s));
             successors := [] |}) steps.

Definition link_successors (nodes : list StepNode) : list StepNode :=
  map (fun n =>
         {| step_id := step_id n; spec := spec n; predecessors := predecessors n;
            successors :=
              step_id <$> filter (fun m => step_id n ∈ predecessors m) nodes |}) nodes.

(** Modelled from the spec: [compile(template) → DAG | CompileError], one node
    per step in declared order, inputs resolved first, collisions second. *)
Definition compile (t : Template) : CompileError + list StepNode :=
  match resolve_inputs 0 [] (pipeline t) with
  | Some e => inl e
  | None =>
      match first_duplicate seed_namespace (all_outputs (pipeline t)) with
      | Some x => inl (DuplicateOutput x)
      | None => inr (link_successors (build_nodes (pipeline t)))
      end
  end.

Inductive NodeState := pending | ready | running | succeeded | failed | skipped.

Global Instance NodeState_eq_dec : EqDecision NodeState.
Proof. solve_decision. Defined.

Inductive StepResult :=
| Outputs (outputs : Artifacts)
| StepError (message : string).

(** Modelled from the spec: what surrounds one run of the Executor.  The
    registered step implementations together with the answers of the external
    services ([execute node k inputs] is the result of the attempt number [k]
    of [node]), the retry budget of each step type, and the moment a
    cancellation request arrives, if any.  Moments are the flag reads of the
    executor: [2 * i] before node [i] is dispatched, [2 * i + 1] when node [i]
    has finished. *)
Record Env := {
  execute : StepNode -> nat -> Artifacts -> StepResult;
  retry_budget : string -> nat;
  cancel_at : option nat
}.

(** Modelled from the spec: the cooperative flag as the executor reads it. *)
Definition cancelled (env : Env) (moment : nat) : bool :=
  match cancel_at env with
  | Some c => c <=? moment
  | None => false
  end.

(** Modelled from the spec: the cancellation request; it sets the cooperative
    flag, which stays set, and does nothing else. *)
Definition request_cancel (moment : nat) (env : Env) : Env :=
  {| execute := execute env; retry_budget := retry_budget env;
     cancel_at := match cancel_at env with
                  | Some c => Some (c `min` moment)
                  | None => Some moment
                  end |}.

Inductive ErrorKind :=
| CompileFailure (e : CompileError)
| NodeExecutionError
| RuntimeDuplicateOutput.

Record JobError := {
  kind : ErrorKind;
  stepId : option nat;
  message : string
}.

(** Modelled from the spec: the retry policy.  A step type with retry budget
    [N] gets one attempt and up to [N] further ones, each with the same
    inputs (the number of attempts the spec configures per step type, one by
    default, is the budget plus one); the result is the first success or the
    last failure, with the number of attempts made. *)
Fixpoint attempts (run : nat -> StepResult) (retries : nat) (k : nat) : nat * StepResult :=
  match run k, retries with
  | StepError _, S r => attempts run r (S k)
  | res, _ => (S k, res)
  end.

(** Modelled from the spec: the Execution Context with the bookkeeping of the
    Executor.  [node_states] lists the nodes that have left [pending], in the
    order they did, with the state they ended in; [published] is what the
    Progress Publisher was given; [executions] logs every attempt with step
    id, attempt number and inputs; [failure] is the first node failure. *)
Record Executor := {
  artifacts : Artifacts;
  node_states : list (nat * NodeState);
  published : list nat;
  executions : list (nat * nat * Artifacts);
  failure : option JobError
}.

Inductive Outcome := AllVisited | CancellationObserved | Fatal (e : JobError).

Definition succeeded_nodes (ex : Executor) : nat :=
  length (filter (fun p => p.2 = succeeded) (node_states ex)).

Definition has_succeeded (ex : Executor) (i : nat) : bool :=
  bool_decide ((i, succeeded) ∈ node_states ex).

Definition mark (i : nat) (s : NodeState) (ex : Executor) : Executor :=
  {| artifacts := artifacts ex; node_states := node_states ex ++ [(i, s)];
     published := published ex; executions := executions ex; failure := failure ex |}.

Definition record_attempts (i made : nat) (inputs : Artifacts) (ex : Executor) : Executor :=
  {| artifacts := artifacts ex; node_states := node_states ex;
     published := published ex;
     executions := executions ex ++ map (fun k => (i, k, inputs)) (seq 0 made);
     failure := failure ex |}.

Definition record_failure (e : JobError) (ex : Executor) : Executor :=
  {| artifacts := artifacts ex; node_states := node_states ex;
     published := published ex; executions := executions ex;
     failure := match failure ex with Some e0 => Some e0 | None => Some e end |}.

Definition restrict (names : list string) (m : Artifacts) : Artifacts :=
  filter (fun kv => kv.1 ∈ names) m.

Definition collides (names : list string) (m : Artifacts) : bool :=
  existsb (fun x => bool_decide (is_Some (m !! x))) names.

(** Modelled from the spec: the commit of a finished node; its declared
    outputs enter the artifact map, the node is [succeeded], progress is
    recomputed as 100 * succeeded / total and published. *)
Definition commit (total : nat) (n : StepNode) (outs : Artifacts) (ex : Executor) : Executor :=
  let ex1 :=
    mark (step_id n) succeeded
      {| artifacts := restrict (declared_outputs (spec n)) outs ∪ artifacts ex;
         node_states := node_states ex; published := published ex;
         executions := executions ex; failure := failure ex |} in
  {| artifacts := artifacts ex1; node_states := node_states ex1;
     published := published ex1 ++ [100 * succeeded_nodes ex1 / total];
     executions := executions ex1; failure := failure ex1 |}.

(** Modelled from the spec: the Executor, as the strictly sequential schedule
    in declared order (a topological order, since inputs only name earlier
    steps).  A node whose predecessors did not all succeed is skipped; the
    flag is read before a dispatch and when the node has finished, and the
    outputs of a node that finished under a set flag are discarded, the node
    not counted; a failed node is recorded and the independent nodes still
    run; a name collision at commit is fatal. *)
Fixpoint run_nodes (env : Env) (total : nat) (nodes : list StepNode) (ex : Executor)
  : Outcome * Executor :=
  match nodes with
  | [] => (AllVisited, ex)
  | n :: rest =>
      if negb (forallb (has_succeeded ex) (predecessors n))
      then run_nodes env total rest (mark (step_id n) skipped ex)
      else if cancelled env (2 * step_id n)
      then (CancellationObserved, ex)
      else
        let inputs := restrict (declared_inputs (spec n)) (artifacts ex) in
        let '(made, res) :=
          attempts (fun k => execute env n k inputs)
                   (retry_budget env (step_type (spec n))) 0 in
        let ex1 := record_attempts (step_id n) made inputs ex in
        match res with
        | StepError msg =>
            run_nodes env total rest
              (record_failure {| kind := NodeExecutionError;
                                 stepId := Some (step_id n); message := msg |}
                 (mark (step_id n) failed ex1))
        | Outputs outs =>
            if cancelled env (2 * step_id n + 1)
            then (CancellationObserved, ex1)
            else if collides (declared_outputs (spec n)) (artifacts ex1)
            then (Fatal {| kind := RuntimeDuplicateOutput;
                           stepId := Some (step_id n); message := "DuplicateOutput" |}, ex1)
            else run_nodes env total rest (commit total n outs ex1)
        end
  end.

(** Modelled from the spec: the terminal outputs, declared by a node and
    consumed by none. *)
Definition terminal_outputs (nodes : list StepNode) : list string :=
  filter (fun x => x ∉ concat (map (fun n => declared_inputs (spec n)) nodes))
         (concat (map (fun n => declared_outputs (spec n)) nodes)).

(** Modelled from the spec: the job record behind the status object. *)
Record Job := {
  job_id : string;
  status : Api.JobStatus;
  progress : nat;
  queue_position : option nat;
  results : Artifacts;
  error : option JobError
}.

(** The partial fields of a status update. *)
Record Fields := {
  new_status : option Api.JobStatus;
  new_progress : option nat;
  new_results : option Artifacts;
  new_error : option JobError
}.

(** [update_job_status(job_id, fields)] on the job record. *)
Definition update_job_status (job : Job) (f : Fields) : Job :=
  {| job_id := job_id job;
     status := default (status job) (new_status f);
     progress := default (progress job) (new_progress f);
     queue_position := queue_position job;
     results := default (results job) (new_results f);
     error := match new_error f with Some e => Some e | None => error job end |}.

Definition progress_update (p : nat) : Fields :=
  {| new_status := None; new_progress := Some p; new_results := None; new_error := None |}.

Definition stamp (s : Api.JobStatus) (p : option nat) (r : option Artifacts)
    (e : option JobError) : Fields :=
  {| new_status := Some s; new_progress := p; new_results := r; new_error := e |}.

(** The job after each of a sequence of updates. *)
Fixpoint snapshots (job : Job) (updates : list Fields) : list Job :=
  match updates with
  | [] => []
  | f :: rest => let job' := update_job_status job f in job' :: snapshots job' rest
  end.

Record Run := {
  updates : list Fields;
  visited : list (nat * nat * Artifacts)
}.

(** [ExecutionContext(job_id, initial_data={"prompt": ..., "parameters": ...})]:
    the seed inputs are in the artifact map before the first node. *)
Definition seed_context (prompt parameters : string) : Executor :=
  {| artifacts := <["prompt" := prompt]> (<["parameters" := parameters]> ∅);
     node_states := []; published := []; executions := []; failure := None |}.

(** Modelled from the spec: how the worker closes a job whose template does
    not compile (the walkthrough shows the completed ending only). *)
Definition rejected (e : CompileError) : Fields :=
  stamp Api.Failed None None
        (Some {| kind := CompileFailure e; stepId := None; message := "CompileError" |}).

(** Modelled from the spec: how a run is closed.  Failed with the error when
    a node failed or the run broke, cancelled when the flag was seen; the
    completed ending is the one of the walkthrough, status completed with
    progress 100, the results being the terminal outputs. *)
Definition closing (workflow : list StepNode) (outcome : Outcome) (ex : Executor) : Fields :=
  match outcome, failure ex with
  | Fatal e, _ => stamp Api.Failed None None (Some e)
  | _, Some e => stamp Api.Failed None None (Some e)
  | CancellationObserved, None => stamp Api.Cancelled None None None
  | AllVisited, None =>
      stamp Api.Completed (Some 100)
            (Some (restrict (terminal_outputs workflow) (artifacts ex))) None
  end.

(** [generate_image(job_id, template_config, prompt, parameters)] of the
    worker, in the order of the walkthrough: the job is stamped processing
    with progress 0, the context is seeded, the workflow is built, then
    executed with the progress callback, and the job is closed. *)
Definition generate_image (env : Env) (t : Template) (prompt parameters : string) : Run :=
  let started := stamp Api.Processing (Some 0) None None in
  let context := seed_context prompt parameters in
  match compile t with
  | inl e => {| updates := [started; rejected e]; visited := [] |}
  | inr workflow =>
      let '(outcome, ex) := run_nodes env (length workflow) workflow context in
      {| updates := started :: map progress_update (published ex)
                    ++ [closing workflow outcome ex];
         visited := executions ex |}
  end.

(** The job as submitted: queued, progress 0, nothing produced. *)
Definition submitted (jid : string) (position : nat) : Job :=
  {| job_id := jid; status := Api.Queued; progress := 0;
     queue_position := Some position; results := ∅; error := None |}.

(** The status objects a job goes through, the submitted one first. *)
Definition history (env : Env) (t : Template) (prompt parameters : string) (job : Job) : list Job :=
  job :: snapshots job (updates (generate_image env t prompt parameters)).

Definition final (env : Env) (t : Template) (prompt parameters : string) (job : Job) : Job :=
  List.last (history env t prompt parameters job) job.

(** The lifecycle order of the job statuses. *)
Inductive transition : Api.JobStatus -> Api.JobStatus -> Prop :=
| queued_to_processing : transition Api.Queued Api.Processing
| processing_to_completed : transition Api.Processing Api.Completed
| processing_to_failed : transition Api.Processing Api.Failed
| processing_to_cancelled : transition Api.Processing Api.Cancelled.

Definition five_statuses : list Api.JobStatus :=
  [Api.Queued; Api.Processing; Api.Completed; Api.Failed; Api.Cancelled].

Definition terminal_statuses : list Api.JobStatus :=
  [Api.Completed; Api.Failed; Api.Cancelled].

(** Consecutive status objects either keep the status (a progress update) or
    take one step of the lifecycle. *)
Inductive lifecycle : list Api.JobStatus -> Prop :=
| lifecycle_nil : lifecycle []
| lifecycle_one s : lifecycle [s]
| lifecycle_keep s l : lifecycle (s :: l) -> lifecycle (s :: s :: l)
| lifecycle_step s s' l : transition s s' -> lifecycle (s' :: l) -> lifecycle (s :: s' :: l).

(** Step [i] of the template declares the input [x], which neither the seed
    nor an earlier step produces. *)
Definition unknown_input (t : Template) (i : nat) (x : string) : Prop :=
  exists s, pipeline t !! i = Some s
            /\ (x ∈ declared_inputs s)
            /\ (x ∉ seed_namespace)
            /\ (x ∉ all_outputs (take i (pipeline t))).


(** What the executor keeps true of its bookkeeping during a run over
    [total] nodes. *)
Definition orderly (total : nat) (ex : Executor) : Prop :=
  succeeded_nodes ex <= length (node_states ex)
  /\ (failure ex <> None -> succeeded_nodes ex < length (node_states ex))
  /\ StronglySorted le (published ex)
  /\ Forall (fun p => p <= 100 * succeeded_nodes ex / total) (published ex).

(** How the published progress values relate to the closing stamp. *)
Definition closes (pubs : list nat) (ending : Fields) : Prop :=
  StronglySorted le pubs
  /\ ((new_status ending = Some Api.Completed
       /\ new_progress ending = Some 100
       /\ Forall (fun p => p <= 100) pubs)
      \/ ((new_status ending = Some Api.Failed \/ new_status ending = Some Api.Cancelled)
          /\ new_progress ending = None
          /\ Forall (fun p => p < 100) pubs)).




End Engine.

(** ** Sample data *)

Module Sample.

Definition backend_ok (r : Api.Request) : Exn + Api.Response :=
  inr {| Api.ok := true; Api.statusText := js "OK";
         Api.json := Some (JObject [("job_id", JString (js "job-1"))]) |}.

Definition render3d : Api.Template :=
  {| Api.id := js "3d-render"; Api.name := js "3D Render";
     Api.description := js "octane, blender"; Api.category := js "3d" |}.

Definition cat_form : Form.FormData :=
  Form.on_event Form.clamp (Form.PromptInput (js "a cat")) Form.initialForm.

(** A form state no slider leads to: nine images. *)
Definition nine_images : Form.FormData :=
  Form.handleInputChange (Form.SetNumImages 9) cat_form.

(** A backend that turns every request down. *)
Definition unavailable : Api.Response :=
  {| Api.ok := false; Api.statusText := js "Service Unavailable"; Api.json := None |}.

Definition backend_down (r : Api.Request) : Exn + Api.Response := inr unavailable.

(** A job as the backend lists it, in a given status and with given results. *)
Definition job_in (s : Api.JobStatus) (rs : option (list Api.JobResult)) : Api.GenerationJob :=
  {| Api.job_id := js "job-1"; Api.status := s; Api.progress := 0; Api.prompt := js "a cat";
     Api.results := rs; Api.error_details := None; Api.queue_position := None |}.

Definition five_images : list Api.JobResult :=
  [ {| Api.result_id := js "r0"; Api.image_url := js "images/job-1_0.jpg";
       Api.thumbnail_url := Some (js "thumbnails/job-1_0.jpg") |};
    {| Api.result_id := js "r1"; Api.image_url := js "images/job-1_1.jpg";
       Api.thumbnail_url := None |};
    {| Api.result_id := js "r2"; Api.image_url := js "images/job-1_2.jpg";
       Api.thumbnail_url := Some [] |};
    {| Api.result_id := js "r3"; Api.image_url := js "images/job-1_3.jpg";
       Api.thumbnail_url := None |};
    {| Api.result_id := js "r4"; Api.image_url := js "images/job-1_4.jpg";
       Api.thumbnail_url := None |} ].

(** A store that lists one queued job and follows it. *)
Definition following : Store.GenerationState :=
  {| Store.templates := [render3d]; Store.selectedTemplate := Some render3d;
     Store.isLoading := true; Store.error := None;
     Store.jobs := [job_in Api.Queued None];
     Store.currentJob := Some (job_in Api.Queued None) |}.

(** The three-step pipeline of the walkthrough: prompt enhancement,
    generation, image saving. *)
Definition enhancement : Engine.StepSpec :=
  {| Engine.step_type := "prompt_enhancement"; Engine.parameters := ∅;
     Engine.declared_inputs := ["prompt"];
     Engine.declared_outputs := ["enhanced_prompt"; "negative_prompt"; "original_prompt"] |}.

Definition generation : Engine.StepSpec :=
  {| Engine.step_type := "generation"; Engine.parameters := ∅;
     Engine.declared_inputs := ["enhanced_prompt"; "negative_prompt"];
     Engine.declared_outputs := ["generated_images"] |}.

Definition save_image : Engine.StepSpec :=
  {| Engine.step_type := "save_image"; Engine.parameters := ∅;
     Engine.declared_inputs := ["generated_images"];
     Engine.declared_outputs := ["saved_images"] |}.

Definition three_steps : Engine.Template :=
  {| Engine.id := "3d-render"; Engine.name := "3D Render"; Engine.category := "3d";
     Engine.pipeline := [enhancement; generation; save_image] |}.

(** The same steps with the saving step before the generation step: its input
    is produced by no earlier step. *)
Definition misordered : Engine.Template :=
  {| Engine.id := "3d-render"; Engine.name := "3D Render"; Engine.category := "3d";
     Engine.pipeline := [enhancement; save_image; generation] |}.

(** Step implementations with an inference backend that is busy on the first
    two calls. *)
Definition flaky (n : Engine.StepNode) (k : nat) (inputs : gmap string string)
  : Engine.StepResult :=
  if String.eqb (Engine.step_type (Engine.spec n)) "prompt_enhancement"
  then Engine.Outputs
         (PromptEnhancementNode.execute (default "" (inputs !! "prompt"))
            ["3d render"; "blender"] "flat")
  else if String.eqb (Engine.step_type (Engine.spec n)) "generation"
  then (if k <? 2 then Engine.StepError "backend busy"
        else Engine.Outputs {["generated_images" := "mock_image_data"]})
  else Engine.Outputs {["saved_images" := "https://example.com/images/0.jpg"]}.

(** Generation may be retried twice, the other step types not at all. *)
Definition budget (step_type : string) : nat :=
  if String.eqb step_type "generation" then 2 else 0.

Definition patient : Engine.Env :=
  {| Engine.execute := flaky; Engine.retry_budget := budget; Engine.cancel_at := None |}.

(** The same surroundings with a cancellation request that arrives between
    the first and the second step. *)
Definition cancelled_after_first : Engine.Env := Engine.request_cancel 2 patient.


(** The same surroundings with one retry for the generation step. *)
Definition impatient : Engine.Env :=
  {| Engine.execute := flaky; Engine.retry_budget := fun _ => 1; Engine.cancel_at := None |}.

(** A job as the status endpoint reports it. *)
Definition reported (s : Api.JobStatus) (p : Q) : Api.GenerationJob :=
  {| Api.job_id := js "job-1"; Api.status := s; Api.progress := p;
     Api.prompt := js "a cat"; Api.results := None; Api.error_details := None;
     Api.queue_position := None |}.


End Sample.

(** * Properties *)

(** ** Worked runs *)

Section WorkedRuns.
Import Engine.

Example trim_strips_both_ends : trim (js "  a cat ") = js "a cat".
Proof. reflexivity. Qed.

Example trim_blank : trim (js "   ") = [].
Proof. reflexivity. Qed.

Example stringify_drops_undefined :
  stringify (JObject [("a", JNull); ("b", JUndefined); ("c", JObject [("d", JUndefined)])])
  = JObject [("a", JNull); ("c", JObject [])].
Proof. reflexivity. Qed.

(** The enhanced prompt of the walkthrough. *)
Example enhanced_prompt_of_the_walkthrough :
  PromptEnhancementNode.execute "modern futuristic car in a cyberpunk city"
    ["3d render"; "octane render"; "blender"; "high quality"; "professional lighting"]
    "2d, flat" !! "enhanced_prompt"
  = Some ("modern futuristic car in a cyberpunk city, 3d render, octane render, "
          +:+ "blender, high quality, professional lighting").
Proof. reflexivity. Qed.

Example enhanced_prompt_without_styles :
  PromptEnhancementNode.execute "car" [] "" !! "enhanced_prompt" = Some "car, ".
Proof. reflexivity. Qed.

(** The generation step is busy twice and answers the third time. *)
Example patient_run :
  map (fun j => (status j, progress j))
      (history Sample.patient Sample.three_steps "car" "{}" (submitted "job-1" 1))
  = [(Api.Queued, 0); (Api.Processing, 0); (Api.Processing, 33); (Api.Processing, 66);
     (Api.Processing, 100); (Api.Completed, 100)]
  /\ map (fun e => e.1) (visited (generate_image Sample.patient Sample.three_steps "car" "{}"))
     = [(0, 0); (1, 0); (1, 1); (1, 2); (2, 0)]
  /\ map_to_list (results (final Sample.patient Sample.three_steps "car" "{}" (submitted "job-1" 1)))
     = [("original_prompt", "car"); ("saved_images", "https://example.com/images/0.jpg")].
Proof. vm_compute. repeat split. Qed.

(** With one retry only, the generation step fails and the saving step is
    skipped. *)
Example impatient_run :
  map (fun j => (status j, progress j, error j))
      (history Sample.impatient Sample.three_steps "car" "{}" (submitted "job-1" 1))
  = [(Api.Queued, 0, None); (Api.Processing, 0, None); (Api.Processing, 33, None);
     (Api.Failed, 33,
      Some {| kind := NodeExecutionError; stepId := Some 1; message := "backend busy" |})]
  /\ map (fun e => e.1) (visited (generate_image Sample.impatient Sample.three_steps "car" "{}"))
     = [(0, 0); (1, 0); (1, 1)].
Proof. vm_compute. repeat split. Qed.

Example cancelled_run :
  map (fun j => (status j, progress j, map_to_list (results j)))
      (history Sample.cancelled_after_first Sample.three_steps "car" "{}" (submitted "job-1" 1))
  = [(Api.Queued, 0, []); (Api.Processing, 0, []); (Api.Processing, 33, []);
     (Api.Cancelled, 33, [])].
Proof. vm_compute. reflexivity. Qed.

(** A request that arrives while the last step runs: the step finishes, its
    output is dropped and the job is cancelled at progress 66. *)
Example cancelled_while_last_step_runs :
  map (fun j => (status j, progress j))
      (history (request_cancel 5 Sample.patient) Sample.three_steps "car" "{}"
               (submitted "job-1" 1))
  = [(Api.Queued, 0); (Api.Processing, 0); (Api.Processing, 33); (Api.Processing, 66);
     (Api.Cancelled, 66)]
  /\ map (fun e => e.1)
         (visited (generate_image (request_cancel 5 Sample.patient) Sample.three_steps "car" "{}"))
     = [(0, 0); (1, 0); (1, 1); (1, 2); (2, 0)].
Proof. vm_compute. repeat split. Qed.

Example duplicate_output_rejected :
  compile {| id := "t"; name := "t"; category := "c";
             pipeline := [Sample.enhancement; Sample.enhancement] |}
  = inl (DuplicateOutput "enhanced_prompt").
Proof. reflexivity. Qed.

(** The poll loop against a job that is queued, then processing, then
    completed: one fetch, and the store keeps the queued status object. *)
Example poll_of_a_queued_job :
  let r := Store.pollJob (inr [])
             [inr (Sample.reported Api.Queued 0); inr (Sample.reported Api.Processing 33);
              inr (Sample.reported Api.Completed 100)] Store.initial in
  Store.fetches r = 1
  /\ Store.stopped r = true
  /\ Store.currentJob (Store.store r) = Some (Sample.reported Api.Queued 0).
Proof. repeat split. Qed.

(** The same loop had the backend used the names the loop tests. *)
Example poll_of_a_pending_job :
  let r := Store.pollJob (inr [])
             [inr (Sample.reported Api.Pending 0); inr (Sample.reported Api.Running 33);
              inr (Sample.reported Api.Completed 100)] Store.initial in
  Store.fetches r = 3
  /\ Store.stopped r = true
  /\ Store.currentJob (Store.store r) = Some (Sample.reported Api.Completed 100).
Proof. repeat split. Qed.
End WorkedRuns.

(** ** The client: submission *)

Section Submission.
Import Api.
Variable fetch : Request -> Exn + Response.

(** On its own, called with its three parameters, the API client puts the
    three fields on the wire and returns the [job_id] of an ok response. *)
Lemma Api_submitGeneration_three_fields (p tid : jsstring) (fields : list (string * jsval)) :
  map (fun r => keys <$> body r)
      (sent (Api.submitGeneration fetch [JString p; JString tid; JObject fields]))
  = [Some ["template_id"; "prompt"; "parameters"]].
Proof. reflexivity. Qed.

Lemma Api_submitGeneration_returns_job_id (args : list jsval) (r : Response) (result : jsval) :
  fetch {| method := POST; endpoint := Generate;
           body := Some (stringify (JObject [("template_id", arg 1 args);
                                             ("prompt", arg 0 args);
                                             ("parameters", arg 2 args)])) |} = inr r ->
  ok r = true -> json r = Some result ->
  returned (Api.submitGeneration fetch args) = get_prop "job_id" result.
Proof.
  intros Hf Hok Hj. unfold Api.submitGeneration. cbn [returned].
  rewrite Hf, Hok, Hj. reflexivity.
Qed.

(** C1 (as the code runs): whatever parameters object the form hands over,
    the store forwards two arguments only, so the request body carries
    [template_id] and [prompt] and no [parameters] field.  So it is for the
    sample form: the parameters object is handed to the store and is not in
    the request. *)
Theorem submission_body_lacks_parameters
    (p tid : jsstring) (parameters : jsval) (st : Store.GenerationState) :
  sent (Store.submitGeneration fetch [JString p; JString tid; parameters] st).2
  = [ {| method := POST; endpoint := Generate;
         body := Some (JObject [("template_id", JString tid); ("prompt", JString p)]) |} ]
  /\ (let r := Form.handleSubmit Sample.backend_ok (Some Sample.render3d) Sample.cat_form
                 Store.initial in
      Form.dispatched r
      = Some [JString (js "a cat"); JString (js "3d-render");
              Form.parameters_of Sample.cat_form]
      /\ Form.wire r
         = [ {| method := POST; endpoint := Generate;
                body := Some (JObject [("template_id", JString (js "3d-render"));
                                       ("prompt", JString (js "a cat"))]) |} ]
      /\ Form.toast r = Some Form.GenerationStarted).
Proof.
  split.
  - unfold Store.submitGeneration. cbn [arg nth].
    destruct (returned (Api.submitGeneration fetch [JString p; JString tid])); reflexivity.
  - repeat split.
Qed.
End Submission.

(** ** The client: polling *)

Section Polling.
Import Api Store.

(** While the fetched status is pending or running the loop goes on. *)
Lemma pollJob_continues history job later st :
  keeps_polling (status job) = true ->
  fetches (pollJob history (inr job :: later) st)
  = S (fetches (pollJob history later (set_currentJob job st))).
Proof. intros H. cbn [pollJob]. rewrite H. reflexivity. Qed.

(** C4 (as the code runs): a job fetched as queued or as processing ends the
    poll loop at once, whatever the backend would answer later: one fetch is
    made, and the status object the client is left with is the queued or
    processing one. *)
Theorem pollJob_stops_on_queued_and_processing
    history later st jid pr p res err qp :
  let queued_job := {| job_id := jid; status := Queued; progress := pr; prompt := p;
                       results := res; error_details := err; queue_position := qp |} in
  let processing_job := {| job_id := jid; status := Processing; progress := pr; prompt := p;
                           results := res; error_details := err; queue_position := qp |} in
  (fetches (pollJob history (inr queued_job :: later) st) = 1
   /\ stopped (pollJob history (inr queued_job :: later) st) = true
   /\ currentJob (store (pollJob history (inr queued_job :: later) st)) = Some queued_job)
  /\ (fetches (pollJob history (inr processing_job :: later) st) = 1
      /\ stopped (pollJob history (inr processing_job :: later) st) = true
      /\ currentJob (store (pollJob history (inr processing_job :: later) st))
         = Some processing_job).
Proof. cbn. repeat split; destruct history; reflexivity. Qed.
End Polling.

(** ** The client: fetchJobStatus *)

Section FetchJobStatus.
Import Api Store.

(** C10: on success every position of the jobs list holds the fetched job if
    the old element had the id asked for and the old element otherwise (so
    length and order are kept), [currentJob] changes only when its id is the
    one asked for, the other fields stay; on an error the store is unchanged. *)
Theorem fetchJobStatus_frame (st : GenerationState) (jobId : jsstring)
    (job : GenerationJob) (e : Exn) :
  let st' := fetchJobStatus (inr job) jobId st in
  length (jobs st') = length (jobs st)
  /\ (forall i : nat, jobs st' !! i = replace_by jobId job <$> jobs st !! i)
  /\ currentJob st' = replace_by jobId job <$> currentJob st
  /\ templates st' = templates st
  /\ selectedTemplate st' = selectedTemplate st
  /\ isLoading st' = isLoading st
  /\ error st' = error st
  /\ fetchJobStatus (inl e) jobId st = st.
Proof.
  cbn zeta. unfold fetchJobStatus.
  set (st1 := set_jobs (map (replace_by jobId job) (jobs st)) st).
  assert (Hst1 : currentJob st1 = currentJob st) by reflexivity.
  rewrite Hst1.
  destruct (currentJob st) as [c|]; cbn [fmap option_fmap option_map].
  - destruct (bool_decide (job_id c = jobId)) eqn:E.
    + assert (replace_by jobId job c = job) as -> by (unfold replace_by; rewrite E; reflexivity).
      cbn. rewrite length_map.
      split; [reflexivity|]. split; [intros i; apply list_lookup_fmap|]. repeat split; exact Hst1.
    + assert (replace_by jobId job c = c) as -> by (unfold replace_by; rewrite E; reflexivity).
      cbn. rewrite length_map.
      split; [reflexivity|]. split; [intros i; apply list_lookup_fmap|]. repeat split; exact Hst1.
  - cbn. rewrite length_map.
    split; [reflexivity|]. split; [intros i; apply list_lookup_fmap|]. repeat split; exact Hst1.
Qed.
End FetchJobStatus.

(** ** The client: the generation form *)

Section FormGuards.
Import Api Form.

Lemma clamp_within_track : reports_within_track clamp.
Proof.
  intros min max raw Hmm. unfold clamp.
  destruct (Qle_bool raw min) eqn:E1.
  - split; [apply Qle_refl | exact Hmm].
  - destruct (Qle_bool max raw) eqn:E2.
    + split; [exact Hmm | apply Qle_refl].
    + split; apply Qlt_le_weak, Qnot_le_lt; intros H;
        apply Qle_bool_iff in H; congruence.
Defined.

Section WithSlider.
Variable slider : Q -> Q -> Q -> Q.
Hypothesis Hslider : reports_within_track slider.

Lemma on_event_in_ranges (e : Event) (f : FormData) :
  in_ranges f -> in_ranges (on_event slider e f).
Proof.
  intros H. destruct e; cbn [on_event]; try exact H.
  - unfold handleResolutionChange.
    match goal with |- context [match ?x with _ => _ end] => destruct x end; [|exact H].
    destruct H as (Hn & Hs & Hc). repeat split; cbn; tauto.
  - destruct H as (Hn & Hs & Hc). split; [|split; assumption].
    cbn. apply Hslider. unfold Qle; cbn; lia.
  - destruct H as (Hn & Hs & Hc). split; [assumption|split; [|assumption]].
    cbn. apply Hslider. unfold Qle; cbn; lia.
  - destruct H as (Hn & Hs & Hc). split; [assumption|split; [assumption|]].
    cbn. apply Hslider. unfold Qle; cbn; lia.
Qed.

Lemma handleSubmit_form_in_ranges fetch template st (f : FormData) :
  in_ranges f -> in_ranges (form (handleSubmit fetch template f st)).
Proof.
  intros H. unfold handleSubmit.
  destruct template as [tpl|]; [|exact H].
  destruct (negb _); [exact H|].
  destruct (Store.submitGeneration _ _ _) as [st1 call].
  destruct (returned call) as [ex|jobId]; [exact H|].
  destruct (truthy jobId); [|exact H].
  cbn [form]. destruct H as (Hn & Hs & Hc). repeat split; cbn; tauto.
Qed.

(** The slider bounds hold in every state the form can reach. *)
Lemma reachable_in_ranges (f : FormData) : reachable slider f -> in_ranges f.
Proof.
  induction 1 as [|e f _ IH|fetch template st f _ IH].
  - unfold in_ranges, Qle; cbn; lia.
  - apply on_event_in_ranges, IH.
  - apply handleSubmit_form_in_ranges, IH.
Qed.
End WithSlider.

Lemma parameters_of_in_ranges (f : FormData) :
  in_ranges f -> parameters_in_ranges (parameters_of f).
Proof.
  intros H. exists (numImages f), (steps f), (cfgScale f).
  repeat split; try reflexivity; apply H.
Qed.

(** The bounds are those of the sliders: [handleSubmit] itself does not look
    at the numbers, a form state with nine images would be handed over. *)
Lemma handleSubmit_does_not_check_ranges :
  ~ in_ranges Sample.nine_images
  /\ dispatched (handleSubmit Sample.backend_ok (Some Sample.render3d) Sample.nine_images
                   Store.initial)
     = Some [JString (js "a cat"); JString (js "3d-render"); parameters_of Sample.nine_images].
Proof.
  split; [|reflexivity].
  intros ((_ & H) & _). unfold Qle in H. cbn in H. lia.
Qed.

(** With a slider that reports values of its track only, in every state the
    form can reach through its widgets [handleSubmit] hands a submission to
    the store exactly when a template is selected and the trimmed prompt is
    not empty; what it hands over is the prompt, the template id and a
    parameters object within the slider bounds; and when it hands nothing
    over, nothing is put on the wire. *)
Lemma reachable_submission_within_bounds (slider : Q -> Q -> Q -> Q) fetch
    (template : option Template) (f : FormData) (st : Store.GenerationState) :
  reports_within_track slider ->
  reachable slider f ->
  let r := handleSubmit fetch template f st in
  (is_Some (dispatched r) <-> is_Some template /\ trim (prompt f) <> [])
  /\ (dispatched r = None -> wire r = [])
  /\ (forall args, dispatched r = Some args ->
        (exists tpl, template = Some tpl
                     /\ args = [JString (prompt f); JString (id tpl); parameters_of f])
        /\ parameters_in_ranges (arg 2 args)).
Proof.
  intros Hslider Hreach r.
  pose proof (parameters_of_in_ranges f (reachable_in_ranges slider Hslider f Hreach)) as Hpar.
  subst r. unfold handleSubmit.
  destruct template as [tpl|].
  2:{ cbn. split; [split; [intros [? ?]; discriminate | intros [[? ?] _]; discriminate]|].
      split; [reflexivity | intros ? ?; discriminate]. }
  cbn [truthy]. rewrite negb_involutive.
  case_bool_decide as Htrim.
  - cbn. split; [split; [intros [? ?]; discriminate | intros [_ ?]; contradiction]|].
    split; [reflexivity | intros ? ?; discriminate].
  - destruct (Store.submitGeneration _ _ _) as [st1 call].
    assert (Hd : forall (t : option Toast) w fm s0 args,
               dispatched {| toast := t;
                             dispatched := Some [JString (prompt f); JString (id tpl); parameters_of f];
                             wire := w; form := fm; store := s0 |} = Some args ->
               (exists tpl0, Some tpl = Some tpl0
                  /\ args = [JString (prompt f); JString (id tpl0); parameters_of f])
               /\ parameters_in_ranges (arg 2 args)).
    { intros t w fm s0 args [= <-]. split; [exists tpl; split; reflexivity | exact Hpar]. }
    destruct (returned call) as [ex|jobId]; [|destruct (truthy jobId)];
      (split; [split; [intros _; split; [eexists; reflexivity | exact Htrim]
                      | intros _; eexists; reflexivity]|]);
      (split; [intros ?; discriminate | apply Hd]).
Qed.

Lemma reachable_submission_within_bounds_on_cat_form :
  reports_within_track clamp
  /\ reachable clamp Sample.cat_form
  /\ let r := handleSubmit Sample.backend_ok (Some Sample.render3d) Sample.cat_form Store.initial in
     (is_Some (dispatched r) <-> is_Some (Some Sample.render3d) /\ trim (prompt Sample.cat_form) <> [])
     /\ (dispatched r = None -> wire r = [])
     /\ (forall args, dispatched r = Some args ->
           (exists tpl, Some Sample.render3d = Some tpl
                        /\ args = [JString (prompt Sample.cat_form); JString (id tpl);
                                   parameters_of Sample.cat_form])
           /\ parameters_in_ranges (arg 2 args)).
Proof.
  split; [exact clamp_within_track|]. split.
  - apply reach_event, reach_initial.
  - apply (reachable_submission_within_bounds clamp Sample.backend_ok (Some Sample.render3d)
             Sample.cat_form Store.initial clamp_within_track).
    apply reach_event, reach_initial.
Defined.



End FormGuards.

(** ** The prompt-augmentation step *)

Section PromptAugmentation.
Import PromptEnhancementNode.

Lemma join_concat (sep : string) (items : list string) :
  join sep items = String.concat sep items.
Proof.
  induction items as [|x rest IH]; [reflexivity|].
  destruct rest as [|y rest]; [reflexivity|].
  cbn [join String.concat]. cbn [join String.concat] in IH. rewrite IH. reflexivity.
Qed.

Lemma prefix_append (s t : string) : String.prefix s (s +:+ t) = true.
Proof.
  induction s as [|a s IH]; simpl.
  - destruct t; reflexivity.
  - destruct (ascii_dec a a); [exact IH | congruence].
Qed.

(** C5: the node is a function of its inputs alone; its enhanced prompt is
    the base prompt, a comma and a space, and the style prompts joined by
    comma and space; the base prompt is a prefix of it and is returned
    unchanged as the original prompt. *)
Theorem prompt_enhancement_composition (base_prompt : string)
    (style_prompts : list string) (negative_prompt : string) :
  let out := execute base_prompt style_prompts negative_prompt in
  out !! "enhanced_prompt" = Some (augmented base_prompt style_prompts)
  /\ out !! "original_prompt" = Some base_prompt
  /\ out !! "negative_prompt" = Some negative_prompt
  /\ String.prefix base_prompt (augmented base_prompt style_prompts) = true
  /\ dom out = {["enhanced_prompt"; "negative_prompt"; "original_prompt"]}.
Proof.
  cbn zeta. unfold execute, augmented. rewrite join_concat.
  split; [reflexivity|]. split; [reflexivity|]. split; [reflexivity|].
  split; [apply prefix_append|].
  rewrite !dom_insert_L, dom_empty_L. set_solver.
Qed.
End PromptAugmentation.

(** ** The engine: compilation *)

Section Compilation.
Import Engine.

Lemma all_outputs_cons (s : StepSpec) (steps : list StepSpec) :
  all_outputs (s :: steps) = declared_outputs s ++ all_outputs steps.
Proof. reflexivity. Qed.


(** An input that nothing resolves makes input resolution stop at that step
    or before it. *)
Lemma resolve_inputs_unknown (steps : list StepSpec) :
  forall (i0 : nat) (earlier : list string) (i : nat) (s : StepSpec) (x : string),
    steps !! i = Some s ->
    x ∈ declared_inputs s ->
    x ∉ seed_namespace ->
    x ∉ earlier ->
    x ∉ all_outputs (take i steps) ->
    exists sid name,
      resolve_inputs i0 earlier steps = Some (UnknownInput sid name) /\ sid <= i0 + i.
Proof.
  induction steps as [|s0 rest IH]; intros i0 earlier i s x Hs Hx Hseed Hearlier Hout.
  - rewrite lookup_nil in Hs. discriminate.
  - cbn [resolve_inputs].
    destruct (find _ (declared_inputs s0)) as [y|] eqn:Hfind.
    + exists i0, y. split; [reflexivity | lia].
    + destruct i as [|i].
      * cbn in Hs. injection Hs as ->.
        apply list_elem_of_In in Hx.
        pose proof (find_none _ _ Hfind x Hx) as Hno. cbn beta in Hno.
        apply negb_false_iff, bool_decide_eq_true in Hno.
        apply elem_of_app in Hno as [Hno|Hno]; contradiction.
      * cbn in Hs. cbn [take] in Hout. rewrite all_outputs_cons in Hout.
        destruct (IH (S i0) (earlier ++ declared_outputs s0) i s x Hs Hx Hseed)
          as (sid & name & Hres & Hle).
        { rewrite elem_of_app. intros [H|H]; [contradiction|].
          apply Hout. rewrite elem_of_app. left. exact H. }
        { intros H. apply Hout. rewrite elem_of_app. right. exact H. }
        exists sid, name. split; [exact Hres | lia].
Qed.

Lemma compile_unknown_input (t : Template) (i : nat) (x : string) :
  unknown_input t i x ->
  exists sid name, compile t = inl (UnknownInput sid name) /\ sid <= i.
Proof.
  intros (s & Hs & Hx & Hseed & Hout).
  destruct (resolve_inputs_unknown (pipeline t) 0 [] i s x Hs Hx Hseed) as (sid & name & Hres & Hle).
  - apply not_elem_of_nil.
  - exact Hout.
  - exists sid, name. unfold compile. rewrite Hres. split; [reflexivity | lia].
Qed.

(** A template with an input that nothing produces is rejected with
    UnknownInput, at that step or at an earlier one, and none of its steps is
    executed. *)
Lemma unknown_input_rejected (env : Env) (t : Template) (prompt parameters : string)
    (i : nat) (x : string) :
  unknown_input t i x ->
  exists sid name,
    compile t = inl (UnknownInput sid name)
    /\ sid <= i
    /\ visited (generate_image env t prompt parameters) = [].
Proof.
  intros H. destruct (compile_unknown_input t i x H) as (sid & name & Hc & Hle).
  exists sid, name. unfold generate_image. rewrite Hc.
  split; [reflexivity|]. split; [exact Hle | reflexivity].
Qed.

Lemma misordered_unknown_input :
  unknown_input Sample.misordered 1 "generated_images".
Proof.
  exists Sample.save_image. split; [reflexivity|].
  split; [apply list_elem_of_In; cbn; tauto|].
  split; intros H; apply list_elem_of_In in H; cbn in H;
    repeat (destruct H as [H|H]; [discriminate|]); exact H.
Qed.
End Compilation.

(** ** The engine: status and progress over a run *)

Section Lifecycle.
Import Engine.

Lemma sorted_snoc (l : list nat) (x : nat) :
  StronglySorted le l -> Forall (fun p => p <= x) l -> StronglySorted le (l ++ [x]).
Proof.
  induction 1 as [|a l Hl IH Ha]; intros Hx; cbn.
  - repeat constructor.
  - apply Forall_cons in Hx as [Hax Hlx]. constructor.
    + apply IH, Hlx.
    + apply Forall_app. split; [exact Ha | repeat constructor; exact Hax].
Qed.

Lemma succeeded_nodes_mark (i : nat) (s : NodeState) (ex : Executor) :
  succeeded_nodes (mark i s ex)
  = succeeded_nodes ex + (if decide (s = succeeded) then 1 else 0).
Proof.
  unfold succeeded_nodes, mark. cbn [node_states].
  rewrite filter_app, length_app. f_equal.
  rewrite filter_cons. cbn. destruct (decide (s = succeeded)); reflexivity.
Qed.

Lemma orderly_skipped_or_failed (total i : nat) (s : NodeState) (ex : Executor) :
  s <> succeeded -> orderly total ex -> orderly total (mark i s ex).
Proof.
  intros Hs (Hle & Hf & Hsorted & Hall). unfold orderly.
  rewrite succeeded_nodes_mark. destruct (decide (s = succeeded)); [contradiction|].
  rewrite Nat.add_0_r. cbn [mark node_states failure published].
  rewrite length_app. cbn. repeat split; [lia | intros _; lia | exact Hsorted | exact Hall].
Qed.

Lemma orderly_commit (total : nat) (n : StepNode) (outs : Artifacts) (ex : Executor) :
  total <> 0 -> orderly total ex -> orderly total (commit total n outs ex).
Proof.
  intros Ht (Hle & Hf & Hsorted & Hall).
  unfold orderly, commit, succeeded_nodes, mark in *.
  cbn [node_states published failure] in *.
  rewrite !filter_app, !length_app, filter_cons.
  destruct (decide ((step_id n, succeeded).2 = succeeded)) as [_|Hne]; [|contradiction].
  cbn [filter list_filter length].
  set (k := length (filter (fun p : nat * NodeState => p.2 = succeeded) (node_states ex))) in *.
  assert (Hmono : 100 * k / total <= 100 * (k + 1) / total).
  { apply Nat.Div0.div_le_mono. lia. }
  repeat split.
  - lia.
  - intros H. specialize (Hf H). lia.
  - apply sorted_snoc; [exact Hsorted|].
    eapply Forall_impl; [exact Hall|]. intros p Hp. exact (Nat.le_trans _ _ _ Hp Hmono).
  - apply Forall_app. split.
    + eapply Forall_impl; [exact Hall|]. intros p Hp. exact (Nat.le_trans _ _ _ Hp Hmono).
    + repeat constructor.
Qed.

Lemma orderly_failed (total i : nat) (e : JobError) (ex : Executor) :
  orderly total ex -> orderly total (record_failure e (mark i failed ex)).
Proof.
  intros (Hle & Hf & Hsorted & Hall).
  assert (Hs : succeeded_nodes (record_failure e (mark i failed ex)) = succeeded_nodes ex).
  { change (succeeded_nodes (mark i failed ex) = succeeded_nodes ex).
    rewrite succeeded_nodes_mark. destruct (decide (failed = succeeded)); [discriminate | lia]. }
  unfold orderly. rewrite Hs.
  cbn [record_failure mark node_states published failure]. rewrite length_app. cbn [length].
  repeat split; [lia | intros _; lia | exact Hsorted | exact Hall].
Qed.

(** The bookkeeping stays orderly through a run; a run that ends early
    leaves at least one node without a state. *)
Lemma run_nodes_orderly (env : Env) (total : nat) (nodes : list StepNode) :
  forall (ex : Executor) (outcome : Outcome) (ex' : Executor),
    run_nodes env total nodes ex = (outcome, ex') ->
    orderly total ex ->
    length (node_states ex) + length nodes = total ->
    orderly total ex'
    /\ length (node_states ex') <= total
    /\ (outcome <> AllVisited -> length (node_states ex') < total).
Proof.
  induction nodes as [|n rest IH]; intros ex outcome ex' Hrun Hord Hlen.
  - cbn in Hrun. injection Hrun as <- <-. cbn in Hlen.
    split; [exact Hord|]. split; [lia | congruence].
  - cbn [run_nodes] in Hrun. cbn [length] in Hlen.
    destruct (negb (forallb (has_succeeded ex) (predecessors n))).
    { eapply IH; [exact Hrun | apply orderly_skipped_or_failed; [discriminate | exact Hord] |].
      cbn. rewrite length_app. cbn. lia. }
    destruct (cancelled env (2 * step_id n)).
    { injection Hrun as <- <-. split; [exact Hord|]. split; [lia | intros _; lia]. }
    destruct (attempts _ _ 0) as [made res].
    destruct res as [outs|msg].
    + destruct (cancelled env (2 * step_id n + 1)).
      { injection Hrun as <- <-. split; [exact Hord|]. cbn. split; [lia | intros _; lia]. }
      destruct (collides _ _).
      { injection Hrun as <- <-. split; [exact Hord|]. cbn. split; [lia | intros _; lia]. }
      eapply IH; [exact Hrun | apply orderly_commit; [lia | exact Hord] |].
      cbn. rewrite length_app. cbn. lia.
    + eapply IH; [exact Hrun | apply orderly_failed; exact Hord |].
      cbn. rewrite length_app. cbn. lia.
Qed.

Lemma progress_bounded (total succ len p : nat) :
  succ <= len -> len <= total -> p <= 100 * succ / total -> p <= 100.
Proof.
  intros H1 H2 Hp. eapply Nat.le_trans; [exact Hp|].
  apply Nat.Div0.div_le_upper_bound. nia.
Qed.

Lemma progress_short (total succ p : nat) :
  succ < total -> p <= 100 * succ / total -> p < 100.
Proof.
  intros H Hp. eapply Nat.le_lt_trans; [exact Hp|].
  apply Nat.Div0.div_lt_upper_bound. nia.
Qed.

(** The updates of a run: the processing stamp, the published progress
    values, one closing stamp. *)
Lemma generate_image_closes (env : Env) (t : Template) (prompt parameters : string) :
  exists pubs ending,
    updates (generate_image env t prompt parameters)
    = stamp Api.Processing (Some 0) None None :: map progress_update pubs ++ [ending]
    /\ closes pubs ending.
Proof.
  unfold generate_image. destruct (compile t) as [e|workflow].
  - exists [], (rejected e).
    split; [reflexivity|]. split; [constructor|]. right. cbn. repeat split; auto.
  - destruct (run_nodes _ _ _ _) as [outcome ex] eqn:Hrun.
    apply run_nodes_orderly in Hrun as ((Hle & Hf & Hsorted & Hall) & Hlen & Hearly).
    2:{ repeat split; cbn; [lia | congruence | constructor | constructor]. }
    2:{ reflexivity. }
    exists (published ex), (closing workflow outcome ex).
    split; [reflexivity|]. split; [exact Hsorted|]. unfold closing.
    assert (Hshort : succeeded_nodes ex < length workflow ->
                     Forall (fun p => p < 100) (published ex)).
    { intros H. eapply Forall_impl; [exact Hall|]. intros p Hp.
      eapply progress_short; [exact H | exact Hp]. }
    destruct outcome as [| |e].
    + destruct (failure ex) as [e|] eqn:Hfail.
      * right. cbn. repeat split; auto. apply Hshort.
        assert (Some e <> None) as Hne by discriminate. specialize (Hf Hne). lia.
      * left. cbn. repeat split; auto.
        eapply Forall_impl; [exact Hall|]. intros p Hp.
        eapply progress_bounded; [exact Hle | exact Hlen | exact Hp].
    + assert (length (node_states ex) < length workflow) as Hlt by (apply Hearly; discriminate).
      destruct (failure ex); right; cbn; (repeat split; auto); apply Hshort; lia.
    + assert (length (node_states ex) < length workflow) as Hlt by (apply Hearly; discriminate).
      right. cbn. repeat split; auto. apply Hshort. lia.
Qed.

Lemma snapshots_status (pubs : list nat) (ending : Fields) (s : Api.JobStatus) :
  forall job : Job,
    new_status ending = Some s ->
    status <$> snapshots job (map progress_update pubs ++ [ending])
    = replicate (length pubs) (status job) ++ [s].
Proof.
  induction pubs as [|p pubs IH]; intros job Hs; cbn.
  - rewrite Hs. reflexivity.
  - f_equal. apply (IH (update_job_status job (progress_update p)) Hs).
Qed.

Lemma last_cons_default {A : Type} (p d : A) (l : list A) :
  List.last (p :: l) d = List.last l p.
Proof.
  revert p d. induction l as [|a l IH]; intros p d; [reflexivity|].
  change (List.last (a :: l) d = List.last (a :: l) p).
  rewrite (IH a d), (IH a p). reflexivity.
Qed.

Lemma snapshots_progress (pubs : list nat) (ending : Fields) :
  forall job : Job,
    progress <$> snapshots job (map progress_update pubs ++ [ending])
    = pubs ++ [default (List.last pubs (progress job)) (new_progress ending)].
Proof.
  induction pubs as [|p pubs IH]; intros job; cbn [map app snapshots fmap list_fmap].
  - reflexivity.
  - rewrite (IH (update_job_status job (progress_update p))).
    rewrite last_cons_default. reflexivity.
Qed.

Lemma last_fmap {A B : Type} (f : A -> B) (l : list A) (d : A) :
  List.last (f <$> l) (f d) = f (List.last l d).
Proof.
  induction l as [|a l IH]; [reflexivity|].
  destruct l as [|b l]; [reflexivity|]. exact IH.
Qed.

Lemma last_in (l : list nat) (b d : nat) : List.last (b :: l) d ∈ b :: l.
Proof.
  revert b d. induction l as [|a l IH]; intros b d.
  - cbn. apply list_elem_of_here.
  - rewrite last_cons_default. apply list_elem_of_further, IH.
Qed.

Lemma sorted_below_last (l : list nat) (d : nat) :
  StronglySorted le l -> Forall (fun p => p <= List.last l d) l.
Proof.
  induction 1 as [|a l Hl IH Ha]; [constructor|].
  destruct l as [|b l]; [repeat constructor|].
  assert (Heq : List.last (a :: b :: l) d = List.last (b :: l) d) by reflexivity.
  rewrite Heq. constructor; [|exact IH].
  rewrite Forall_forall in Ha. apply Ha, last_in.
Qed.

Lemma last_Forall (P : nat -> Prop) (l : list nat) (d : nat) :
  Forall P l -> P d -> P (List.last l d).
Proof.
  intros Hl Hd. destruct l as [|b l]; [exact Hd|].
  rewrite Forall_forall in Hl. apply Hl, last_in.
Qed.

Lemma closes_status (pubs : list nat) (ending : Fields) :
  closes pubs ending ->
  exists s, new_status ending = Some s /\ s ∈ terminal_statuses.
Proof.
  intros (_ & [(Hs & _)|([Hs|Hs] & _)]); eexists; (split; [exact Hs|]);
    apply list_elem_of_In; cbn; tauto.
Qed.

Lemma history_statuses (env : Env) (t : Template) (prompt parameters jid : string)
    (position : nat) :
  exists pubs ending s,
    closes pubs ending
    /\ new_status ending = Some s
    /\ s ∈ terminal_statuses
    /\ status <$> history env t prompt parameters (submitted jid position)
       = Api.Queued :: replicate (S (length pubs)) Api.Processing ++ [s]
    /\ progress <$> history env t prompt parameters (submitted jid position)
       = (0 :: 0 :: pubs) ++ [default (List.last pubs 0) (new_progress ending)].
Proof.
  destruct (generate_image_closes env t prompt parameters) as (pubs & ending & Hupd & Hcl).
  destruct (closes_status pubs ending Hcl) as (s & Hs & Hterm).
  exists pubs, ending, s. unfold history. rewrite Hupd.
  cbn [snapshots fmap list_fmap].
  rewrite (snapshots_status pubs ending s _ Hs), snapshots_progress.
  split; [exact Hcl|]. split; [exact Hs|]. split; [exact Hterm|]. split; reflexivity.
Qed.

Lemma lifecycle_processing (k : nat) (s : Api.JobStatus) :
  s ∈ terminal_statuses -> lifecycle (replicate (S k) Api.Processing ++ [s]).
Proof.
  intros Hs. induction k as [|k IH].
  - cbn. apply lifecycle_step; [|apply lifecycle_one].
    apply list_elem_of_In in Hs. cbn in Hs.
    destruct Hs as [<-|[<-|[<-|[]]]]; constructor.
  - apply lifecycle_keep. exact IH.
Qed.

(** C3: the status objects of a job, from submission on, carry queued, then
    processing one or more times, then one of completed, failed and
    cancelled: each is one of the five statuses, consecutive ones keep the
    status or take one step of the lifecycle, and queued never comes back. *)
Theorem job_status_lifecycle (env : Env) (t : Template) (prompt parameters jid : string)
    (position : nat) :
  let statuses := status <$> history env t prompt parameters (submitted jid position) in
  (exists k s, statuses = Api.Queued :: replicate (S k) Api.Processing ++ [s]
               /\ s ∈ terminal_statuses)
  /\ Forall (fun s => s ∈ five_statuses) statuses
  /\ lifecycle statuses
  /\ Api.Queued ∉ tail statuses.
Proof.
  destruct (history_statuses env t prompt parameters jid position)
    as (pubs & ending & s & _ & _ & Hterm & Hst & _).
  cbn zeta. rewrite Hst. split; [exists (length pubs), s; split; [reflexivity | exact Hterm]|].
  assert (Hfive : s ∈ five_statuses).
  { apply list_elem_of_In in Hterm. apply list_elem_of_In. cbn in *. tauto. }
  assert (Hnq : s <> Api.Queued).
  { intros ->. apply list_elem_of_In in Hterm. cbn in Hterm.
    destruct Hterm as [H|[H|[H|[]]]]; discriminate. }
  split; [|split].
  - constructor; [apply list_elem_of_In; cbn; tauto|].
    apply Forall_app. split; [|constructor; [exact Hfive | constructor]].
    apply Forall_replicate. apply list_elem_of_In; cbn; tauto.
  - apply lifecycle_step; [constructor|]. apply lifecycle_processing, Hterm.
  - cbn [tail]. intros Hin. apply elem_of_app in Hin as [Hin|Hin].
    + apply elem_of_replicate in Hin as [Hin _]. discriminate.
    + apply list_elem_of_singleton in Hin. congruence.
Qed.

(** The union declared for [GenerationJob.status] has two values beyond the
    five, pending and running.  They are the ones the poll loop of the store
    goes on for, and no status object of the worker carries them: on every
    status the worker writes, the poll loop stops. *)
Lemma worker_statuses_stop_the_poll_loop (env : Env) (t : Template)
    (prompt parameters jid : string) (position : nat) :
  (Api.Pending ∉ five_statuses)
  /\ (Api.Running ∉ five_statuses)
  /\ Forall (fun s => Store.keeps_polling s = false)
            (status <$> history env t prompt parameters (submitted jid position)).
Proof.
  split; [|split].
  - intros H. apply list_elem_of_In in H. cbn in H.
    repeat (destruct H as [H|H]; [discriminate|]). exact H.
  - intros H. apply list_elem_of_In in H. cbn in H.
    repeat (destruct H as [H|H]; [discriminate|]). exact H.
  - destruct (job_status_lifecycle env t prompt parameters jid position) as (_ & Hfive & _).
    eapply Forall_impl; [exact Hfive|]. intros s Hs.
    apply list_elem_of_In in Hs. cbn in Hs.
    destruct Hs as [<-|[<-|[<-|[<-|[<-|[]]]]]]; reflexivity.
Qed.

(** C2: over the status objects of a job the progress never decreases, and
    the last one has progress 100 exactly when its status is completed. *)
Theorem progress_monotone_and_full_iff_completed (env : Env) (t : Template)
    (prompt parameters jid : string) (position : nat) :
  StronglySorted le (progress <$> history env t prompt parameters (submitted jid position))
  /\ (progress (final env t prompt parameters (submitted jid position)) = 100
      <-> status (final env t prompt parameters (submitted jid position)) = Api.Completed).
Proof.
  destruct (history_statuses env t prompt parameters jid position)
    as (pubs & ending & s & (Hsorted & Hcl) & Hs & Hterm & Hst & Hpr).
  assert (Hp : progress (final env t prompt parameters (submitted jid position))
               = default (List.last pubs 0) (new_progress ending)).
  { unfold final. change 0 with (progress (submitted jid position)) at 1.
    rewrite <- (last_fmap progress), Hpr. apply last_last. }
  assert (Hf : status (final env t prompt parameters (submitted jid position)) = s).
  { unfold final. rewrite <- (last_fmap status), Hst.
    change (Api.Queued :: replicate (S (length pubs)) Api.Processing ++ [s])
      with ((Api.Queued :: replicate (S (length pubs)) Api.Processing) ++ [s]).
    apply last_last. }
  rewrite Hp, Hf, Hpr. rewrite Hs in Hcl.
  destruct Hcl as [(Hc & Hnp & Hall)|(Hfc & Hnp & Hall)]; rewrite Hnp; cbn [default].
  - injection Hc as ->. split; [|split; reflexivity].
    cbn [app]. do 2 (constructor; [|apply Forall_forall; intros; lia]).
    apply sorted_snoc; assumption.
  - split.
    + cbn [app]. do 2 (constructor; [|apply Forall_forall; intros; lia]).
      apply sorted_snoc; [assumption|]. apply sorted_below_last, Hsorted.
    + assert (Hlt : List.last pubs 0 < 100) by (apply last_Forall; [exact Hall | lia]).
      split; [lia|]. intros ->. destruct Hfc as [H|H]; discriminate.
Qed.


End Lifecycle.

(** ** The engine: retry and cancellation *)

Section RetryAndCancellation.
Import Engine.









Section CompiledRun.
Variables (env : Env) (t : Template) (dag : list StepNode).
Hypothesis Hcompile : compile t = inr dag.





End CompiledRun.

(** The client side of a cancellation: one DELETE for the job, without a
    body; what comes of it is the backend's answer. *)
Lemma cancelJob_sends_one_delete (fetch : Api.Request -> Exn + Api.Response) (jobId : jsval) :
  Api.sent (Api.cancelJob fetch jobId)
  = [ {| Api.method := Api.DELETE; Api.endpoint := Api.JobOf jobId; Api.body := None |} ].
Proof. reflexivity. Qed.









Section ExhaustedBudget.
Variables (env : Env) (t : Template) (dag : list StepNode).
Hypothesis Hcompile : compile t = inr dag.



End ExhaustedBudget.







End RetryAndCancellation.


(** * Further properties of the client *)

(** ** The API client *)

Section ApiCalls.
Import Api.
Variable fetch : Request -> Exn + Response.

Lemma get_json_returns_only_ok (target : Endpoint) (failure : string) (v : jsval) :
  returned (get_json fetch target failure) = inr v ->
  exists response,
    fetch {| method := GET; endpoint := target; body := None |} = inr response
    /\ ok response = true /\ json response = Some v.
Proof.
  unfold get_json. cbn [returned].
  destruct (fetch _) as [e|response]; [discriminate|].
  destruct (ok response) eqn:Hok; cbn [negb]; [|discriminate].
  destruct (json response) as [result|] eqn:Hjson; [|discriminate].
  intros [= ->]. exists response. split; [reflexivity|]. split; [exact Hok | exact Hjson].
Qed.

(** X1: a call of the API client sends one request, and it returns a value
    only when [fetch] resolved with an ok response: the parsed body for the
    three reading calls, the [job_id] property of the parsed body for
    [submitGeneration], nothing for [cancelJob]. *)
Theorem api_calls_return_only_ok_responses (args : list jsval) (jobId : jsval) :
  (sent (fetchTemplates fetch) = [ {| method := GET; endpoint := Templates; body := None |} ]
   /\ sent (getJob fetch jobId)
      = [ {| method := GET; endpoint := JobStatusOf jobId; body := None |} ]
   /\ sent (getJobs fetch) = [ {| method := GET; endpoint := History; body := None |} ]
   /\ sent (submitGeneration fetch args) = [generate_request args]
   /\ sent (cancelJob fetch jobId)
      = [ {| method := DELETE; endpoint := JobOf jobId; body := None |} ])
  /\ (forall v, returned (fetchTemplates fetch) = inr v ->
        exists response,
          fetch {| method := GET; endpoint := Templates; body := None |} = inr response
          /\ ok response = true /\ json response = Some v)
  /\ (forall v, returned (getJob fetch jobId) = inr v ->
        exists response,
          fetch {| method := GET; endpoint := JobStatusOf jobId; body := None |} = inr response
          /\ ok response = true /\ json response = Some v)
  /\ (forall v, returned (getJobs fetch) = inr v ->
        exists response,
          fetch {| method := GET; endpoint := History; body := None |} = inr response
          /\ ok response = true /\ json response = Some v)
  /\ (forall v, returned (submitGeneration fetch args) = inr v ->
        exists response result,
          fetch (generate_request args) = inr response
          /\ ok response = true /\ json response = Some result
          /\ get_prop "job_id" result = inr v)
  /\ (forall u, returned (cancelJob fetch jobId) = inr u ->
        exists response,
          fetch {| method := DELETE; endpoint := JobOf jobId; body := None |} = inr response
          /\ ok response = true).
Proof.
  split; [repeat split|].
  split; [apply get_json_returns_only_ok|].
  split; [apply get_json_returns_only_ok|].
  split; [apply get_json_returns_only_ok|].
  split.
  - intros v. unfold submitGeneration. cbn [returned].
    fold (generate_request args).
    destruct (fetch (generate_request args)) as [e|response]; [discriminate|].
    destruct (ok response) eqn:Hok; cbn [negb]; [|discriminate].
    destruct (json response) as [result|] eqn:Hjson; [|discriminate].
    intros H. exists response, result.
    split; [reflexivity|]. split; [exact Hok|]. split; [exact Hjson | exact H].
  - intros u. unfold cancelJob. cbn [returned].
    destruct (fetch _) as [e|response]; [discriminate|].
    destruct (ok response) eqn:Hok; cbn [negb]; [|discriminate].
    intros _. exists response. split; [reflexivity | exact Hok].
Qed.

(** X2: when the backend answers a response that is not ok, each of the five
    calls throws an [Error] whose message is the call's own prefix followed
    by the status text of the response. *)
Theorem api_calls_throw_on_refusal (response : Response) (args : list jsval) (jobId : jsval) :
  (forall r, fetch r = inr response) ->
  ok response = false ->
  returned (fetchTemplates fetch)
  = inl (Error (js "Failed to fetch templates: " ++ statusText response))
  /\ returned (getJob fetch jobId)
     = inl (Error (js "Failed to fetch job: " ++ statusText response))
  /\ returned (getJobs fetch)
     = inl (Error (js "Failed to fetch jobs: " ++ statusText response))
  /\ returned (submitGeneration fetch args)
     = inl (Error (js "Failed to submit generation: " ++ statusText response))
  /\ returned (cancelJob fetch jobId)
     = inl (Error (js "Failed to cancel job: " ++ statusText response)).
Proof.
  intros Hf Hok.
  unfold fetchTemplates, getJob, getJobs, get_json, submitGeneration, cancelJob.
  cbn [returned]. rewrite !Hf, Hok. repeat split.
Qed.
End ApiCalls.

Lemma api_calls_throw_on_refusal_witness :
  (forall r, Sample.backend_down r = inr Sample.unavailable)
  /\ Api.ok Sample.unavailable = false
  /\ Api.returned (Api.getJob Sample.backend_down (JString (js "job-1")))
     = inl (Error (js "Failed to fetch job: Service Unavailable")).
Proof.
  split; [reflexivity|]. split; [reflexivity|].
  exact (proj1 (proj2 (api_calls_throw_on_refusal Sample.backend_down Sample.unavailable []
                         (JString (js "job-1")) (fun r => eq_refl) eq_refl))).
Defined.

(** ** The store *)

Section StoreActions.
Import Api Store.

Lemma submitGeneration_frame fetch (args : list jsval) (st : GenerationState) :
  let st' := (Store.submitGeneration fetch args st).1 in
  templates st' = templates st /\ selectedTemplate st' = selectedTemplate st
  /\ jobs st' = jobs st /\ currentJob st' = currentJob st.
Proof.
  cbn zeta. unfold Store.submitGeneration.
  destruct (returned (Api.submitGeneration fetch _)); repeat split.
Qed.

(** X3: the store's [submitGeneration] never throws.  When the backend turns
    the request down it returns null, leaves the store not loading, and sets
    the error to "Failed to submit generation: " followed by the status text;
    templates, selected template, jobs and current job are as before. *)
Theorem store_submitGeneration_refused fetch (response : Response) (args : list jsval)
    (st : GenerationState) :
  (forall r, fetch r = inr response) ->
  ok response = false ->
  let '(st', call) := Store.submitGeneration fetch args st in
  returned call = inr JNull
  /\ isLoading st' = false
  /\ error st' = Some (js "Failed to submit generation: " ++ statusText response)
  /\ templates st' = templates st /\ selectedTemplate st' = selectedTemplate st
  /\ jobs st' = jobs st /\ currentJob st' = currentJob st.
Proof.
  intros Hf Hok. unfold Store.submitGeneration, Api.submitGeneration.
  cbn [returned sent]. rewrite Hf, Hok. cbn. repeat split.
Qed.

Lemma store_submitGeneration_refused_witness :
  (forall r, Sample.backend_down r = inr Sample.unavailable)
  /\ ok Sample.unavailable = false
  /\ let '(st', call) :=
       Store.submitGeneration Sample.backend_down [JString (js "a cat")] Store.initial in
     returned call = inr JNull
     /\ isLoading st' = false
     /\ error st' = Some (js "Failed to submit generation: Service Unavailable").
Proof.
  split; [reflexivity|]. split; [reflexivity|].
  pose proof (store_submitGeneration_refused Sample.backend_down Sample.unavailable
                [JString (js "a cat")] Store.initial (fun r => eq_refl) eq_refl) as H.
  destruct (Store.submitGeneration Sample.backend_down [JString (js "a cat")] Store.initial)
    as [st' call].
  destruct H as (H1 & H2 & H3 & _). split; [exact H1|]. split; [exact H2 | exact H3].
Defined.

(** The store's [submitGeneration] always comes back with a value: the job id
    the API client returned, or null when the API client threw. *)
Lemma store_submitGeneration_never_throws fetch (args : list jsval) (st : GenerationState) :
  exists v, returned (Store.submitGeneration fetch args st).2 = inr v.
Proof.
  unfold Store.submitGeneration.
  destruct (returned (Api.submitGeneration fetch _)); eexists; reflexivity.
Qed.

(** *** The poll loop *)

Lemma pollJob_frame history (answers : list (Exn + GenerationJob)) :
  forall st : GenerationState,
    let r := pollJob history answers st in
    templates (store r) = templates st
    /\ selectedTemplate (store r) = selectedTemplate st
    /\ error (store r) = error st.
Proof.
  induction answers as [|a later IH]; intros st; cbn [pollJob].
  - repeat split.
  - destruct a as [e|job]; [repeat split|].
    destruct (keeps_polling (status job)).
    + cbn [store]. destruct (IH (set_currentJob job st)) as (H1 & H2 & H3).
      repeat split; assumption.
    + cbn [store]. destruct history; repeat split.
Qed.

Lemma pollJob_counts history (answers : list (Exn + GenerationJob)) :
  forall st : GenerationState,
    let r := pollJob history answers st in
    fetches r <= length answers
    /\ (stopped r = true -> 0 < fetches r /\ isLoading (store r) = false)
    /\ (stopped r = false ->
        fetches r = length answers
        /\ isLoading (store r) = isLoading st
        /\ jobs (store r) = jobs st).
Proof.
  induction answers as [|a later IH]; intros st; cbn [pollJob].
  - cbn. split; [lia|]. split; [discriminate | intros _; repeat split].
  - destruct a as [e|job].
    + cbn. split; [lia|]. split; [intros _; split; [lia | reflexivity] | discriminate].
    + destruct (keeps_polling (status job)).
      * destruct (IH (set_currentJob job st)) as (H1 & H2 & H3).
        cbn [fetches stopped store length]. split; [lia|]. split.
        -- intros Hs. destruct (H2 Hs) as [_ Hl]. split; [lia | exact Hl].
        -- intros Hs. destruct (H3 Hs) as (Hf & Hl & Hj).
           split; [lia|]. split; [exact Hl | exact Hj].
      * cbn [fetches stopped store length]. split; [lia|]. split; [|discriminate].
        intros _. split; [lia|]. destruct history; reflexivity.
Qed.

(** X4: the poll loop makes at most one fetch per answer; whenever it has
    stopped the store is not loading any more; as long as it has not stopped
    it has fetched every answer and has left [isLoading] and the jobs list
    alone; templates, selected template and error are never touched. *)
Theorem pollJob_effects history (answers : list (Exn + GenerationJob))
    (st : GenerationState) :
  let r := pollJob history answers st in
  fetches r <= length answers
  /\ (stopped r = true -> 0 < fetches r /\ isLoading (store r) = false)
  /\ (stopped r = false ->
      fetches r = length answers
      /\ isLoading (store r) = isLoading st
      /\ jobs (store r) = jobs st)
  /\ templates (store r) = templates st
  /\ selectedTemplate (store r) = selectedTemplate st
  /\ error (store r) = error st.
Proof.
  cbn zeta. destruct (pollJob_counts history answers st) as (H1 & H2 & H3).
  destruct (pollJob_frame history answers st) as (H4 & H5 & H6).
  repeat split; try assumption; try (apply H2; assumption); apply H3; assumption.
Qed.

Lemma pollJob_while_polling history (pre : list (Exn + GenerationJob)) :
  forall (rest : list (Exn + GenerationJob)) (st : GenerationState),
    Forall (fun a => stops a = false) pre ->
    exists st',
      currentJob st' = last_job pre (currentJob st)
      /\ templates st' = templates st /\ selectedTemplate st' = selectedTemplate st
      /\ isLoading st' = isLoading st /\ error st' = error st /\ jobs st' = jobs st
      /\ fetches (pollJob history (pre ++ rest) st)
         = length pre + fetches (pollJob history rest st')
      /\ stopped (pollJob history (pre ++ rest) st) = stopped (pollJob history rest st')
      /\ store (pollJob history (pre ++ rest) st) = store (pollJob history rest st').
Proof.
  induction pre as [|a pre IH]; intros rest st Hall.
  - exists st. repeat split.
  - apply Forall_cons in Hall as [Ha Hall].
    destruct a as [e|job]; [discriminate|].
    cbn in Ha. apply negb_false_iff in Ha.
    destruct (IH rest (set_currentJob job st) Hall)
      as (st' & H1 & H2 & H3 & H4 & H5 & H6 & H7 & H8 & H9).
    exists st'. cbn [app pollJob last_job fold_left]. rewrite Ha.
    cbn [fetches stopped store length].
    split; [exact H1|]. split; [exact H2|]. split; [exact H3|]. split; [exact H4|].
    split; [exact H5|]. split; [exact H6|]. split; [lia|]. split; [exact H8 | exact H9].
Qed.

(** X5: the poll loop ends at the first answer that is a failed fetch or a
    job neither pending nor running.  It has then made one fetch per answer up
    to that one, and whatever the backend would have answered afterwards
    plays no part. *)
Theorem pollJob_ends_at_first_stop history (pre later : list (Exn + GenerationJob))
    (a : Exn + GenerationJob) (st : GenerationState) :
  Forall (fun a => stops a = false) pre ->
  stops a = true ->
  pollJob history (pre ++ a :: later) st = pollJob history (pre ++ [a]) st
  /\ fetches (pollJob history (pre ++ a :: later) st) = S (length pre)
  /\ stopped (pollJob history (pre ++ a :: later) st) = true.
Proof.
  intros Hpre Ha. revert st.
  induction Hpre as [|b pre Hb Hpre IH]; intros st.
  - cbn [app length]. destruct a as [e|job]; cbn [pollJob]; [repeat split|].
    cbn in Ha. apply negb_true_iff in Ha. rewrite Ha. repeat split.
  - destruct b as [e|job]; [discriminate|].
    cbn in Hb. apply negb_false_iff in Hb.
    cbn [app pollJob length]. rewrite Hb. cbn [fetches stopped store].
    destruct (IH (set_currentJob job st)) as (H1 & H2 & H3).
    rewrite H1, <- H2. rewrite H1. split; [reflexivity|]. split; [reflexivity|].
    rewrite <- H1. exact H3.
Qed.

Lemma pollJob_ends_at_first_stop_witness :
  let pending := {| job_id := js "j1"; status := Pending; progress := 0; prompt := js "a cat";
                    results := None; error_details := None; queue_position := None |} in
  let queued := {| job_id := js "j1"; status := Queued; progress := 0; prompt := js "a cat";
                   results := None; error_details := None; queue_position := Some 2%Q |} in
  Forall (fun a => stops a = false) [inr pending; inr pending]
  /\ stops (inr queued) = true
  /\ fetches (pollJob (inr []) ([inr pending; inr pending] ++ inr queued :: [inr pending])
                initial) = 3.
Proof.
  intros pending queued.
  assert (Hpre : Forall (fun a => stops a = false)
                   [inr pending; inr pending : Exn + GenerationJob]).
  { repeat constructor. }
  split; [exact Hpre|]. split; [reflexivity|].
  exact (proj1 (proj2 (pollJob_ends_at_first_stop (inr []) [inr pending; inr pending]
                         [inr pending] (inr queued) initial Hpre eq_refl))).
Defined.

(** X6: as long as the backend answers pending or running the poll loop goes
    on: after any number of such answers it has not stopped, it has fetched
    each of them, the current job is the last one fetched, and [isLoading]
    and the jobs list are as they were.  The loop has no bound of its own. *)
Theorem pollJob_goes_on_while_pending_or_running history
    (answers : list (Exn + GenerationJob)) (st : GenerationState) :
  Forall (fun a => stops a = false) answers ->
  let r := pollJob history answers st in
  stopped r = false
  /\ fetches r = length answers
  /\ currentJob (store r) = last_job answers (currentJob st)
  /\ isLoading (store r) = isLoading st
  /\ jobs (store r) = jobs st.
Proof.
  intros Hall.
  destruct (pollJob_while_polling history answers [] st Hall)
    as (st' & H1 & _ & _ & H4 & _ & H6 & H7 & H8 & H9).
  rewrite app_nil_r in H7, H8, H9. cbn [pollJob fetches stopped store] in H7, H8, H9.
  cbn zeta. rewrite H7, H8, H9.
  split; [reflexivity|]. split; [lia|]. split; [exact H1|]. split; [exact H4 | exact H6].
Qed.

Lemma pollJob_goes_on_while_pending_or_running_witness :
  let answers : list (Exn + GenerationJob) :=
    [inr (Sample.job_in Pending None); inr (Sample.job_in Running None);
     inr (Sample.job_in Running None)] in
  Forall (fun a => stops a = false) answers
  /\ stopped (pollJob (inr []) answers Sample.following) = false
  /\ fetches (pollJob (inr []) answers Sample.following) = 3.
Proof.
  intros answers.
  assert (Hall : Forall (fun a => stops a = false) answers) by (repeat constructor).
  split; [exact Hall|].
  destruct (pollJob_goes_on_while_pending_or_running (inr []) answers Sample.following Hall)
    as (H1 & H2 & _).
  split; [exact H1 | exact H2].
Defined.

(** *** fetchJobStatus *)

(** X7: [fetchJobStatus] never adds a job: when neither the jobs list nor the
    current job has the id asked for, the fetched job is dropped and the
    store is exactly as before. *)
Theorem fetchJobStatus_unknown_id (job : GenerationJob) (jobId : jsstring)
    (st : GenerationState) :
  (forall j, j ∈ jobs st -> job_id j <> jobId) ->
  (forall c, currentJob st = Some c -> job_id c <> jobId) ->
  fetchJobStatus (inr job) jobId st = st.
Proof.
  intros Hjobs Hcur. destruct st as [ts sel ld er js cur].
  cbn [jobs currentJob] in Hjobs, Hcur.
  assert (Hm : map (replace_by jobId job) js = js).
  { rewrite <- (map_id js) at 2. apply map_ext_in. intros j Hj.
    unfold replace_by. rewrite bool_decide_false; [reflexivity|].
    apply Hjobs. apply list_elem_of_In. exact Hj. }
  unfold fetchJobStatus. cbn [jobs currentJob set_jobs]. rewrite Hm.
  destruct cur as [c|]; [|reflexivity].
  rewrite bool_decide_false by (apply Hcur; reflexivity). reflexivity.
Qed.

Lemma fetchJobStatus_unknown_id_witness :
  (forall j, j ∈ jobs Sample.following -> job_id j <> js "job-2")
  /\ (forall c, currentJob Sample.following = Some c -> job_id c <> js "job-2")
  /\ fetchJobStatus (inr (Sample.job_in Completed (Some Sample.five_images))) (js "job-2")
       Sample.following
     = Sample.following.
Proof.
  assert (H1 : forall j, j ∈ jobs Sample.following -> job_id j <> js "job-2").
  { intros j Hj. apply list_elem_of_singleton in Hj. subst j. discriminate. }
  assert (H2 : forall c, currentJob Sample.following = Some c -> job_id c <> js "job-2").
  { intros c [= <-]. discriminate. }
  split; [exact H1|]. split; [exact H2|].
  exact (fetchJobStatus_unknown_id _ _ _ H1 H2).
Defined.

Lemma replace_by_idem (jobId : jsstring) (job j : GenerationJob) :
  replace_by jobId job (replace_by jobId job j) = replace_by jobId job j.
Proof.
  unfold replace_by. destruct (bool_decide (job_id j = jobId)) eqn:E.
  - destruct (bool_decide (job_id job = jobId)); reflexivity.
  - rewrite E. reflexivity.
Qed.

(** X8: [fetchJobStatus] is idempotent: with the same answer for the same id,
    a second call leaves the store as the first one left it, also when the
    job that comes back carries another id than the one asked for. *)
Theorem fetchJobStatus_idempotent (answer : Exn + GenerationJob) (jobId : jsstring)
    (st : GenerationState) :
  fetchJobStatus answer jobId (fetchJobStatus answer jobId st)
  = fetchJobStatus answer jobId st.
Proof.
  destruct answer as [e|job]; [reflexivity|].
  destruct st as [ts sel ld er js cur].
  assert (Hm : map (replace_by jobId job) (map (replace_by jobId job) js)
               = map (replace_by jobId job) js).
  { rewrite map_map. apply map_ext. intros x. apply replace_by_idem. }
  unfold fetchJobStatus. cbn [jobs currentJob set_jobs].
  destruct cur as [c|].
  - destruct (bool_decide (job_id c = jobId)) eqn:E.
    + cbn [jobs currentJob set_jobs set_currentJob templates selectedTemplate isLoading error].
      rewrite Hm.
      destruct (bool_decide (job_id job = jobId)); reflexivity.
    + cbn [jobs currentJob set_jobs set_currentJob templates selectedTemplate isLoading error].
      rewrite E, Hm. reflexivity.
  - cbn [jobs currentJob set_jobs set_currentJob templates selectedTemplate isLoading error].
    rewrite Hm. reflexivity.
Qed.
End StoreActions.

(** ** The generation form *)

Section FormBehaviour.
Import Api Form.

Lemma trimStart_nil (s : jsstring) :
  trimStart s = [] <-> forallb is_white_space s = true.
Proof.
  induction s as [|c s IH]; cbn; [tauto|].
  destruct (is_white_space c); cbn; [exact IH|].
  split; discriminate.
Qed.

Lemma trimStart_head (s : jsstring) (c : N) (rest : jsstring) :
  trimStart s = c :: rest -> is_white_space c = false.
Proof.
  induction s as [|d s IH]; cbn; [discriminate|].
  destruct (is_white_space d) eqn:E; [exact IH|].
  intros [= -> _]. exact E.
Qed.

Lemma forallb_rev {A} (p : A -> bool) (l : list A) : forallb p (rev l) = forallb p l.
Proof.
  induction l as [|x l IH]; [reflexivity|].
  cbn. rewrite forallb_app, IH. cbn. rewrite andb_true_r. apply andb_comm.
Qed.

(** The trimmed prompt is empty exactly when every code unit is white space. *)
Lemma trim_nil (s : jsstring) : trim s = [] <-> forallb is_white_space s = true.
Proof.
  unfold trim. split.
  - intros H. apply (f_equal (@rev N)) in H. rewrite rev_involutive in H. cbn in H.
    apply trimStart_nil in H. rewrite forallb_rev in H.
    destruct (trimStart s) as [|c rest] eqn:E; [apply trimStart_nil; exact E|].
    apply trimStart_head in E. cbn in H. rewrite E in H. discriminate.
  - intros H. apply trimStart_nil in H. rewrite H. reflexivity.
Qed.

(** X9: with a template selected, [handleSubmit] answers with the "Prompt
    required" toast exactly when every code unit of the prompt is white space
    (the empty prompt included); it then sends nothing and leaves form and
    store as they are. *)
Theorem handleSubmit_prompt_required_iff_blank fetch (template : Template) (f : FormData)
    (st : Store.GenerationState) :
  let r := handleSubmit fetch (Some template) f st in
  (toast r = Some PromptRequired <-> forallb is_white_space (prompt f) = true)
  /\ (toast r = Some PromptRequired -> wire r = [] /\ form r = f /\ store r = st).
Proof.
  cbn zeta. unfold handleSubmit. cbn [truthy]. rewrite negb_involutive.
  case_bool_decide as Htrim.
  - cbn. split; [|intros _; repeat split].
    split; [intros _; apply trim_nil; exact Htrim | reflexivity].
  - assert (Hnb : forallb is_white_space (prompt f) <> true).
    { intros H. apply Htrim, trim_nil, H. }
    destruct (Store.submitGeneration _ _ _) as [st1 call].
    destruct (returned call) as [ex|jobId]; [|destruct (truthy jobId)]; cbn;
      (split; [split; [discriminate | intros H; contradiction] | discriminate]).
Qed.

Lemma handleResolutionChange_dims (v : jsstring) (f : FormData) :
  (width f, height f) ∈ dimensions <$> RESOLUTION_PRESETS ->
  (width (handleResolutionChange v f), height (handleResolutionChange v f))
    ∈ dimensions <$> RESOLUTION_PRESETS.
Proof.
  intros H. unfold handleResolutionChange.
  destruct (find _ RESOLUTION_PRESETS) as [p|] eqn:E; [|exact H].
  apply find_some in E as [Hin _]. cbn [handleInputChange width height].
  apply list_elem_of_fmap. exists p. split; [reflexivity | apply list_elem_of_In; exact Hin].
Qed.

Lemma handleSubmit_form_dims fetch template st (f : FormData) :
  width (form (handleSubmit fetch template f st)) = width f
  /\ height (form (handleSubmit fetch template f st)) = height f.
Proof.
  unfold handleSubmit.
  destruct template as [tpl|]; [|split; reflexivity].
  destruct (negb _); [split; reflexivity|].
  destruct (Store.submitGeneration _ _ _) as [st1 call].
  destruct (returned call) as [ex|jobId]; [split; reflexivity|].
  destruct (truthy jobId); split; reflexivity.
Qed.

(** X10: in every state the form can reach, width and height are those of
    one of the five resolution presets: no event sets one without the other,
    and a submission keeps both. *)
Theorem reachable_resolution_is_a_preset (slider : Q -> Q -> Q -> Q) (f : FormData) :
  reachable slider f ->
  (width f, height f) ∈ dimensions <$> RESOLUTION_PRESETS.
Proof.
  induction 1 as [|e f _ IH|fetch template st f _ IH].
  - cbn. left.
  - destruct e; cbn [on_event]; try exact IH.
    apply handleResolutionChange_dims, IH.
  - destruct (handleSubmit_form_dims fetch template st f) as [-> ->]. exact IH.
Qed.

Lemma reachable_resolution_is_a_preset_witness :
  let f := on_event clamp (ResolutionSelect (js "1024x576"))
             (on_event clamp (StepsSlide 500) initialForm) in
  reachable clamp f
  /\ (width f, height f) ∈ dimensions <$> RESOLUTION_PRESETS.
Proof.
  intros f.
  assert (H : reachable clamp f) by (apply reach_event, reach_event, reach_initial).
  split; [exact H | exact (reachable_resolution_is_a_preset clamp f H)].
Defined.

(** X11: [handleResolutionChange] touches width and height only; given the
    value of a preset of the table it sets that preset's width and height
    (the values of the table tell the presets apart), and given any other
    value it leaves the form alone. *)
Theorem handleResolutionChange_selects_preset (v : jsstring) (f : FormData) :
  let f' := handleResolutionChange v f in
  (prompt f' = prompt f /\ negativePrompt f' = negativePrompt f
   /\ numImages f' = numImages f /\ steps f' = steps f
   /\ cfgScale f' = cfgScale f /\ seed f' = seed f)
  /\ (forall p, p ∈ RESOLUTION_PRESETS -> value p = v ->
        width f' = preset_width p /\ height f' = preset_height p)
  /\ ((forall p, p ∈ RESOLUTION_PRESETS -> value p <> v) -> f' = f).
Proof.
  cbn zeta. unfold handleResolutionChange. split; [|split].
  - destruct (find _ RESOLUTION_PRESETS); repeat split.
  - intros p Hp Hv. subst v.
    repeat (apply elem_of_cons in Hp as [->|Hp]; [split; reflexivity|]).
    apply elem_of_nil in Hp. contradiction.
  - intros Hno. destruct (find _ RESOLUTION_PRESETS) as [p|] eqn:E; [|reflexivity].
    apply find_some in E as [Hin Hv]. apply bool_decide_eq_true in Hv.
    exfalso. apply (Hno p); [apply list_elem_of_In; exact Hin | exact Hv].
Qed.

Lemma handleSubmit_started fetch (template : option Template) (f : FormData)
    (st : Store.GenerationState) :
  toast (handleSubmit fetch template f st) = Some GenerationStarted ->
  form (handleSubmit fetch template f st)
  = handleInputChange (SetSeed None)
      (handleInputChange (SetNegativePrompt []) (handleInputChange (SetPrompt []) f))
  /\ store (handleSubmit fetch template f st) = Store.set_loading true None st.
Proof.
  unfold handleSubmit.
  destruct template as [tpl|]; [|discriminate].
  destruct (negb _); [discriminate|].
  unfold Store.submitGeneration.
  destruct (returned (Api.submitGeneration fetch _)) as [ex|jobId]; cbn [returned];
    [discriminate|].
  destruct (truthy jobId); [|discriminate].
  intros _. split; reflexivity.
Qed.

(** X12: when [handleSubmit] announces "Generation started!", the form it
    leaves has prompt and negative prompt empty and no seed, with the five
    numeric settings kept; the store is loading with no error; and submitting
    that form again, against any backend and store, is refused with "Prompt
    required" and sends nothing. *)
Theorem handleSubmit_started_resets_form fetch (template : option Template) (f : FormData)
    (st : Store.GenerationState) :
  let r := handleSubmit fetch template f st in
  toast r = Some GenerationStarted ->
  (prompt (form r) = [] /\ negativePrompt (form r) = [] /\ seed (form r) = None
   /\ width (form r) = width f /\ height (form r) = height f
   /\ numImages (form r) = numImages f /\ steps (form r) = steps f
   /\ cfgScale (form r) = cfgScale f)
  /\ (Store.isLoading (store r) = true /\ Store.error (store r) = None)
  /\ (forall fetch' template' st',
        let r' := handleSubmit fetch' (Some template') (form r) st' in
        toast r' = Some PromptRequired /\ dispatched r' = None /\ wire r' = []).
Proof.
  cbn zeta. intros H. destruct (handleSubmit_started fetch template f st H) as [-> ->].
  split; [repeat split|]. split; [split; reflexivity|].
  intros fetch' template' st'. repeat split.
Qed.

Lemma handleSubmit_started_resets_form_witness :
  let r := handleSubmit Sample.backend_ok (Some Sample.render3d) Sample.cat_form Store.initial in
  toast r = Some GenerationStarted
  /\ prompt (form r) = []
  /\ toast (handleSubmit Sample.backend_ok (Some Sample.render3d) (form r) (store r))
     = Some PromptRequired.
Proof.
  intros r. assert (H : toast r = Some GenerationStarted) by reflexivity.
  split; [exact H|].
  destruct (handleSubmit_started_resets_form Sample.backend_ok (Some Sample.render3d)
              Sample.cat_form Store.initial H) as ((Hp & _) & _ & Hagain).
  split; [exact Hp|].
  exact (proj1 (Hagain Sample.backend_ok Sample.render3d (store r))).
Defined.

(** X13: when the backend turns the request down, [handleSubmit] shows no
    toast and keeps the form as typed; one request went out, carrying the
    prompt and the template id in the places of the store's two parameters;
    the store is not loading and holds "Failed to submit generation: "
    followed by the status text as its error. *)
Theorem handleSubmit_refused_keeps_form fetch (response : Response) (template : Template)
    (f : FormData) (st : Store.GenerationState) :
  (forall r, fetch r = inr response) ->
  ok response = false ->
  trim (prompt f) <> [] ->
  let r := handleSubmit fetch (Some template) f st in
  toast r = None
  /\ form r = f
  /\ wire r = [generate_request [JString (prompt f); JString (id template)]]
  /\ Store.isLoading (store r) = false
  /\ Store.error (store r)
     = Some (js "Failed to submit generation: " ++ statusText response).
Proof.
  intros Hf Hok Htrim. cbn zeta. unfold handleSubmit. cbn [truthy].
  rewrite negb_involutive, bool_decide_false by exact Htrim.
  unfold Store.submitGeneration, Api.submitGeneration. cbn [returned sent arg nth].
  rewrite Hf, Hok. cbn. repeat split.
Qed.

Lemma handleSubmit_refused_keeps_form_witness :
  (forall r, Sample.backend_down r = inr Sample.unavailable)
  /\ ok Sample.unavailable = false
  /\ trim (prompt Sample.cat_form) <> []
  /\ let r := handleSubmit Sample.backend_down (Some Sample.render3d) Sample.cat_form
               Store.initial in
     toast r = None /\ form r = Sample.cat_form
     /\ Store.error (store r) = Some (js "Failed to submit generation: Service Unavailable").
Proof.
  assert (Ht : trim (prompt Sample.cat_form) <> []) by discriminate.
  split; [reflexivity|]. split; [reflexivity|]. split; [exact Ht|].
  destruct (handleSubmit_refused_keeps_form Sample.backend_down Sample.unavailable
              Sample.render3d Sample.cat_form Store.initial (fun r => eq_refl) eq_refl Ht)
    as (H1 & H2 & _ & _ & H5).
  split; [exact H1|]. split; [exact H2 | exact H5].
Defined.

(** X14: the parameters object carries a seed exactly when the form has a
    seed other than zero, and then that seed: a seed of 0 is dropped like a
    missing one.  The five numeric settings are always there, as typed. *)
Theorem parameters_of_seed (f : FormData) :
  (number_field "seed" (parameters_of f) = None
   <-> seed f = None \/ exists s, seed f = Some s /\ (s == 0)%Q)
  /\ (forall s, number_field "seed" (parameters_of f) = Some s -> seed f = Some s)
  /\ number_field "width" (parameters_of f) = Some (width f)
  /\ number_field "height" (parameters_of f) = Some (height f)
  /\ number_field "num_images" (parameters_of f) = Some (numImages f)
  /\ number_field "steps" (parameters_of f) = Some (steps f)
  /\ number_field "cfg_scale" (parameters_of f) = Some (cfgScale f).
Proof.
  unfold parameters_of.
  destruct (seed f) as [s|] eqn:Es; cbn [truthy].
  - destruct (Qeq_bool s 0) eqn:E; cbn.
    + split; [|split; [discriminate | repeat split]].
      split; [intros _; right; exists s; split; [reflexivity | apply Qeq_bool_iff, E]
             | reflexivity].
    + split; [|split; [intros s' [= <-]; reflexivity | repeat split]].
      split; [discriminate|].
      intros [H|(s' & [= <-] & H)]; [discriminate|].
      apply Qeq_bool_iff in H. congruence.
  - cbn. split; [|split; [discriminate | repeat split]].
    split; [intros _; left; reflexivity | reflexivity].
Qed.

(** X15: whenever the component renders the form with its submit button
    enabled, [handleSubmit] hands the prompt, the shown template's id and the
    parameters to the store: neither of its two refusals can be reached
    through the button, and the store is not loading. *)
Theorem enabled_button_reaches_the_store fetch (template : option Template) (f : FormData)
    (st : Store.GenerationState) (shown : Template) :
  render template (Store.isLoading st) f = FormFor shown false ->
  let r := handleSubmit fetch template f st in
  dispatched r = Some [JString (prompt f); JString (id shown); parameters_of f]
  /\ toast r <> Some NoTemplateSelected
  /\ toast r <> Some PromptRequired
  /\ Store.isLoading st = false.
Proof.
  unfold render, submit_disabled. destruct template as [tpl|]; [|discriminate].
  intros [= -> H]. apply orb_false_iff in H as [Hl Hp].
  cbn zeta. unfold handleSubmit. cbn [truthy] in Hp |- *. rewrite Hp.
  destruct (Store.submitGeneration _ _ _) as [st1 call].
  destruct (returned call) as [ex|jobId]; [|destruct (truthy jobId)]; cbn;
    (split; [reflexivity|]); (split; [discriminate|]); (split; [discriminate | exact Hl]).
Qed.

Lemma enabled_button_reaches_the_store_witness :
  render (Some Sample.render3d) (Store.isLoading Store.initial) Sample.cat_form
  = FormFor Sample.render3d false
  /\ dispatched (handleSubmit Sample.backend_down (Some Sample.render3d) Sample.cat_form
                   Store.initial)
     = Some [JString (prompt Sample.cat_form); JString (id Sample.render3d);
             parameters_of Sample.cat_form].
Proof.
  split; [reflexivity|].
  exact (proj1 (enabled_button_reaches_the_store Sample.backend_down (Some Sample.render3d)
                  Sample.cat_form Store.initial Sample.render3d eq_refl)).
Defined.

(** X16: [handleSubmit] itself pays no attention to [isLoading]: toast,
    submission handed over, requests sent and resulting form are the same
    whether the store is loading or not, and so is the resulting store
    whenever a submission is handed over.  Only the disabled button stands
    between a generation in flight and a second submission. *)
Theorem handleSubmit_ignores_isLoading fetch (template : option Template) (f : FormData)
    (st : Store.GenerationState) (b : bool) :
  let r := handleSubmit fetch template f st in
  let r' := handleSubmit fetch template f (Store.set_isLoading b st) in
  toast r' = toast r /\ dispatched r' = dispatched r /\ wire r' = wire r
  /\ form r' = form r
  /\ (is_Some (dispatched r) -> store r' = store r).
Proof.
  cbn zeta. unfold handleSubmit.
  destruct template as [tpl|]; [|cbn; repeat split; intros [? ?]; discriminate].
  destruct (negb _); [cbn; repeat split; intros [? ?]; discriminate|].
  unfold Store.submitGeneration.
  destruct (returned (Api.submitGeneration fetch _)) as [ex|jobId]; cbn [returned];
    [repeat split|].
  destruct (truthy jobId); repeat split.
Qed.
End FormBehaviour.

(** ** The progress tracker *)

Section TrackerCards.
Import Api Tracker.

(** X17: [formatTimeAgo] on a date that parses: "just now" below one minute
    (a date in the future included), then whole minutes from 1 to 59, whole
    hours from 1 to 23 and whole days from 1 on, each the floor of the
    difference divided by the unit (the floors taken one after the other
    give the same as one division).  On a date that does not parse every
    comparison fails and the text is "NaNd ago". *)
Theorem formatTimeAgo_units (now : Z) (date : option Z) :
  (date = None -> formatTimeAgo now date = js "NaNd ago")
  /\ (forall d, date = Some d ->
        let diff := (now - d)%Z in
        ((diff < 60000)%Z -> formatTimeAgo now date = js "just now")
        /\ ((60000 <= diff < 3600000)%Z ->
            formatTimeAgo now date = number_to_string (Some (diff / 60000)%Z) ++ js "m ago"
            /\ (1 <= diff / 60000 < 60)%Z)
        /\ ((3600000 <= diff < 86400000)%Z ->
            formatTimeAgo now date = number_to_string (Some (diff / 3600000)%Z) ++ js "h ago"
            /\ (1 <= diff / 3600000 < 24)%Z)
        /\ ((86400000 <= diff)%Z ->
            formatTimeAgo now date = number_to_string (Some (diff / 86400000)%Z) ++ js "d ago"
            /\ (1 <= diff / 86400000)%Z)).
Proof.
  split; [intros ->; reflexivity|].
  intros d -> diff. unfold formatTimeAgo.
  cbn [fmap option_fmap option_map floor_div less_than]. fold diff.
  change (1000 * 60)%Z with 60000%Z.
  assert (Hh : (diff / 60000 / 60 = diff / 3600000)%Z).
  { rewrite Z.div_div by lia. reflexivity. }
  assert (Hd : (diff / 60000 / 60 / 24 = diff / 86400000)%Z).
  { rewrite !Z.div_div by lia. reflexivity. }
  rewrite Hd, Hh.
  split; [|split; [|split]].
  - intros H. assert (diff / 60000 < 1)%Z by (apply Z.div_lt_upper_bound; lia).
    destruct (Z.ltb_spec (diff / 60000) 1); [reflexivity | lia].
  - intros [H1 H2].
    assert (1 <= diff / 60000)%Z by (apply Z.div_le_lower_bound; lia).
    assert (diff / 60000 < 60)%Z by (apply Z.div_lt_upper_bound; lia).
    destruct (Z.ltb_spec (diff / 60000) 1); [lia|].
    destruct (Z.ltb_spec (diff / 60000) 60); [|lia].
    split; [reflexivity | lia].
  - intros [H1 H2].
    assert (60 <= diff / 60000)%Z by (apply Z.div_le_lower_bound; lia).
    assert (1 <= diff / 3600000)%Z by (apply Z.div_le_lower_bound; lia).
    assert (diff / 3600000 < 24)%Z by (apply Z.div_lt_upper_bound; lia).
    destruct (Z.ltb_spec (diff / 60000) 1); [lia|].
    destruct (Z.ltb_spec (diff / 60000) 60); [lia|].
    destruct (Z.ltb_spec (diff / 3600000) 24); [|lia].
    split; [reflexivity | lia].
  - intros H1.
    assert (60 <= diff / 60000)%Z by (apply Z.div_le_lower_bound; lia).
    assert (24 <= diff / 3600000)%Z by (apply Z.div_le_lower_bound; lia).
    assert (1 <= diff / 86400000)%Z by (apply Z.div_le_lower_bound; lia).
    destruct (Z.ltb_spec (diff / 60000) 1); [lia|].
    destruct (Z.ltb_spec (diff / 60000) 60); [lia|].
    destruct (Z.ltb_spec (diff / 3600000) 24); [lia|].
    split; [reflexivity | lia].
Qed.


(** X19: below a queued or processing job the queue line reads "Position n
    in queue" exactly when the position is a positive number; a missing or
    negative position draws nothing; and a position of 0 leaves the bare
    number 0 as the child, since the first operand of the [&&] chain is then
    its value. *)
Theorem queue_line_cases (queue_position : option Q) :
  (forall n, queue_line queue_position = Position n
             <-> queue_position = Some n /\ (0 < n)%Q)
  /\ (forall n, queue_line queue_position = BareNumber n
                <-> queue_position = Some n /\ (n == 0)%Q)
  /\ (queue_line queue_position = NoQueueLine
      <-> queue_position = None \/ exists n, queue_position = Some n /\ (n < 0)%Q).
Proof.
  unfold queue_line. destruct queue_position as [q|]; cbn [truthy].
  2:{ split; [|split].
      - intros n. split; [discriminate | intros [? _]; discriminate].
      - intros n. split; [discriminate | intros [? _]; discriminate].
      - split; [intros _; left; reflexivity | reflexivity]. }
  rewrite negb_involutive.
  destruct (Qeq_bool q 0) eqn:E0.
  - apply Qeq_bool_iff in E0. split; [|split].
    + intros n. split; [discriminate|]. intros [[= <-] H]. rewrite E0 in H.
      exfalso. exact (Qlt_irrefl 0 H).
    + intros n. split; [intros [= <-]; split; [reflexivity | exact E0]|].
      intros [[= <-] _]. reflexivity.
    + split; [discriminate|]. intros [H|(n & [= <-] & H)]; [discriminate|].
      rewrite E0 in H. exfalso. exact (Qlt_irrefl 0 H).
  - assert (Hne : ~ (q == 0)%Q).
    { intros H. apply Qeq_bool_iff in H. congruence. }
    destruct (Qle_bool q 0) eqn:E1; cbn [negb].
    + apply Qle_bool_iff in E1.
      assert (Hlt : (q < 0)%Q).
      { apply Qle_lteq in E1 as [H|H]; [exact H | contradiction]. }
      split; [|split].
      * intros n. split; [discriminate|]. intros [[= <-] H].
        exfalso. exact (Qlt_irrefl 0 (Qlt_le_trans _ _ _ H E1)).
      * intros n. split; [discriminate|]. intros [[= <-] H]. contradiction.
      * split; [intros _; right; exists q; split; [reflexivity | exact Hlt] | reflexivity].
    + assert (Hgt : (0 < q)%Q).
      { apply Qnot_le_lt. intros H. apply Qle_bool_iff in H. congruence. }
      split; [|split].
      * intros n. split; [intros [= <-]; split; [reflexivity | exact Hgt]|].
        intros [[= <-] _]. reflexivity.
      * intros n. split; [discriminate|]. intros [[= <-] H]. contradiction.
      * split; [discriminate|]. intros [H|(n & [= <-] & H)]; [discriminate|].
        exfalso. exact (Qlt_irrefl 0 (Qlt_trans _ _ _ Hgt H)).
Qed.



End TrackerCards.

(** ** The gallery *)

Section GalleryCards.
Import Api Gallery.

(** X21: with the store of generation-store.ts, which has neither
    [jobHistory] nor [fetchJobHistory], [ImageGallery] gets undefined for
    both and throws when it renders, in every state of the store.  The
    callback of its filter accepts a job exactly when the job is completed
    and [GenerationCard] draws a card for it. *)
Theorem ImageGallery_throws_on_render (st : Store.GenerationState) :
  (Store.useGenerationStore st "jobHistory" = Store.UndefinedValue
   /\ Store.useGenerationStore st "fetchJobHistory" = Store.UndefinedValue)
  /\ (exists message, ImageGallery st = inl (Error message))
  /\ (forall job, has_images job = true
                  <-> status job = Completed /\ is_Some (GenerationCard job)).
Proof.
  split; [split; reflexivity|]. split; [eexists; reflexivity|].
  intros job. unfold has_images, GenerationCard. split.
  - intros H. destruct (status job); try discriminate.
    destruct (results job) as [[|r rs]|]; try discriminate.
    split; [reflexivity | eexists; reflexivity].
  - intros (Hs & [c Hc]). rewrite Hs.
    destruct (results job) as [[|r rs]|]; try discriminate. reflexivity.
Qed.

(** X22: a gallery card shows the same pictures as the tracker's results
    grid, the first four results at most, the first one large; the badge is
    there exactly when there is more than one result and counts all the
    others, of which three at most are shown. *)
Theorem gallery_card_images (job : GenerationJob) (rs : list JobResult) :
  results job = Some rs ->
  rs <> [] ->
  exists card,
    GenerationCard job = Some card
    /\ primary card :: additional card = Tracker.src <$> take 4 rs
    /\ (badge card = None <-> length rs = 1)
    /\ (forall n, badge card = Some n ->
          n = length rs - 1 /\ length (additional card) = Nat.min 3 n).
Proof.
  intros Hr Hne. unfold GenerationCard. rewrite Hr.
  destruct rs as [|r rs]; [contradiction|].
  eexists. split; [reflexivity|]. cbn [primary additional badge].
  destruct rs as [|r2 rs].
  - cbn. split; [reflexivity|]. split; [split; reflexivity | discriminate].
  - change (1 <? length (r :: r2 :: rs)) with true. cbn match.
    split; [unfold slice; cbn; reflexivity|].
    split; [split; [discriminate | cbn; discriminate]|].
    intros n [= <-]. split; [reflexivity|].
    unfold slice. rewrite length_fmap, length_take, length_drop. cbn [length]. lia.
Qed.

Lemma gallery_card_images_witness :
  let job := Sample.job_in Completed (Some Sample.five_images) in
  results job = Some Sample.five_images
  /\ Sample.five_images <> []
  /\ exists card,
       GenerationCard job = Some card /\ badge card = Some 4
       /\ length (additional card) = 3.
Proof.
  intros job.
  assert (Hne : Sample.five_images <> []) by discriminate.
  split; [reflexivity|]. split; [exact Hne|].
  destruct (gallery_card_images job Sample.five_images eq_refl Hne)
    as (card & H1 & H2 & H3 & H4).
  exists card. split; [exact H1|].
  assert (Hb : badge card = Some 4).
  { unfold GenerationCard in H1. cbn in H1. injection H1 as <-. reflexivity. }
  split; [exact Hb|]. exact (proj2 (H4 4 Hb)).
Defined.
End GalleryCards.

(** ** The page *)

Section PageView.
Import Api Page.

Lemma code_unit_le_total (a b : jsstring) : code_unit_le a b = true \/ code_unit_le b a = true.
Proof.
  revert b. induction a as [|x a IH]; intros [|y b]; cbn; try tauto.
  destruct (N.ltb_spec x y); [left; reflexivity|].
  destruct (N.ltb_spec y x); [right; reflexivity|].
  assert (x = y) as -> by lia. rewrite N.eqb_refl. cbn. apply IH.
Qed.

Lemma code_unit_le_trans (a b c : jsstring) :
  code_unit_le a b = true -> code_unit_le b c = true -> code_unit_le a c = true.
Proof.
  revert b c. induction a as [|x a IH]; intros [|y b] [|z c]; cbn; try tauto; try discriminate.
  intros H1 H2.
  apply orb_true_iff in H1 as [H1|H1]; apply orb_true_iff in H2 as [H2|H2].
  - apply N.ltb_lt in H1, H2. apply orb_true_iff. left. apply N.ltb_lt. lia.
  - apply andb_true_iff in H2 as [H2 _]. apply N.eqb_eq in H2. subst z.
    rewrite H1. reflexivity.
  - apply andb_true_iff in H1 as [H1 _]. apply N.eqb_eq in H1. subst y.
    rewrite H2. reflexivity.
  - apply andb_true_iff in H1 as [H1 H1']. apply andb_true_iff in H2 as [H2 H2'].
    apply N.eqb_eq in H1, H2. subst y z. rewrite N.eqb_refl, (IH b c H1' H2').
    apply orb_true_r.
Qed.

#[local] Instance code_unit_order_total : Total code_unit_order.
Proof. intros a b. apply code_unit_le_total. Qed.

#[local] Instance code_unit_order_trans : Transitive code_unit_order.
Proof. intros a b c. apply code_unit_le_trans. Qed.

Lemma unique_spec (l seen : list jsstring) :
  NoDup (unique seen l)
  /\ (forall x, x ∈ unique seen l <-> (x ∈ l) /\ x ∉ seen).
Proof.
  revert seen. induction l as [|y l IH]; intros seen; cbn [unique].
  - split; [constructor|]. intros x. split; [intros H; inversion H | intros [H _]; inversion H].
  - case_bool_decide as Hy.
    + destruct (IH seen) as [Hnd Hin]. split; [exact Hnd|].
      intros x. rewrite Hin, elem_of_cons. split; [tauto|].
      intros [[->|H] Hs]; [contradiction | tauto].
    + destruct (IH (y :: seen)) as [Hnd Hin]. split.
      * constructor; [|exact Hnd]. rewrite Hin, elem_of_cons. tauto.
      * intros x. rewrite elem_of_cons, Hin, !elem_of_cons.
        split; [intros [->|[H1 H2]]; tauto|].
        intros [[->|H] Hs]; [tauto|].
        destruct (decide (x = y)) as [->|Hne]; [tauto|]. right. tauto.
Qed.

Lemma categories_elem (templates : list Template) (c : jsstring) :
  c ∈ categories templates <-> exists t, (t ∈ templates) /\ category t = c.
Proof.
  unfold categories, sort.
  rewrite (merge_sort_Permutation code_unit_order (unique [] (category <$> templates))).
  rewrite (proj2 (unique_spec (category <$> templates) []) c), list_elem_of_fmap. split.
  - intros [(t & -> & Ht) _]. exists t. split; [exact Ht | reflexivity].
  - intros (t & Ht & <-). split; [exists t; split; [reflexivity | exact Ht]|].
    apply not_elem_of_nil.
Qed.

(** X23: the category buttons are the categories of the loaded templates,
    each once, in ascending order of their code units. *)
Theorem categories_sorted_without_duplicates (templates : list Template) :
  StronglySorted code_unit_order (categories templates)
  /\ NoDup (categories templates)
  /\ (forall c, c ∈ categories templates <-> exists t, (t ∈ templates) /\ category t = c).
Proof.
  split; [apply StronglySorted_merge_sort; apply _|].
  split; [|apply categories_elem].
  unfold categories, sort.
  rewrite (merge_sort_Permutation code_unit_order (unique [] (category <$> templates))).
  apply unique_spec.
Qed.

Lemma includes_empty (s : jsstring) : includes s [] = true.
Proof. destruct s; reflexivity. Qed.

Lemma filter_all {A} (p : A -> bool) (l : list A) :
  (forall x, x ∈ l -> p x = true) -> List.filter p l = l.
Proof.
  induction l as [|x l IH]; intros H; [reflexivity|].
  cbn. rewrite (H x) by left. f_equal. apply IH. intros y Hy. apply H. right. exact Hy.
Qed.

Section WithCaseMapping.
Variable toLowerCase : jsstring -> jsstring.

(** X24: with a case mapping that maps the empty string to itself and an
    empty search box, every template is listed when no category (or the
    category with the empty name) is chosen, and choosing any of the
    category buttons lists at least one template; whatever the search, a
    template listed under a chosen category with a name is a loaded template
    of that category. *)
Theorem category_buttons_find_templates (templates : list Template) :
  toLowerCase [] = [] ->
  filteredTemplates toLowerCase templates [] None = templates
  /\ filteredTemplates toLowerCase templates [] (Some []) = templates
  /\ (forall c, c ∈ categories templates ->
        filteredTemplates toLowerCase templates [] (Some c) <> [])
  /\ (forall searchTerm c t,
        c <> [] -> t ∈ filteredTemplates toLowerCase templates searchTerm (Some c) ->
        (t ∈ templates) /\ category t = c).
Proof.
  intros Hlower.
  assert (Hsearch : forall t, matchesSearch toLowerCase [] t = true).
  { intros t. unfold matchesSearch. rewrite Hlower, includes_empty. reflexivity. }
  split; [|split; [|split]].
  - apply filter_all. intros t _. rewrite Hsearch. reflexivity.
  - apply filter_all. intros t _. rewrite Hsearch. reflexivity.
  - intros c Hc. apply categories_elem in Hc as (t & Ht & Hcat).
    assert (Hin : t ∈ filteredTemplates toLowerCase templates [] (Some c)).
    { unfold filteredTemplates. apply list_elem_of_In, filter_In.
      split; [apply list_elem_of_In; exact Ht|].
      rewrite Hsearch. cbn [matchesCategory andb].
      rewrite (bool_decide_true _ Hcat). apply orb_true_r. }
    intros E. rewrite E in Hin. inversion Hin.
  - intros searchTerm c t Hc Ht.
    unfold filteredTemplates in Ht. apply list_elem_of_In, filter_In in Ht as [Hin H].
    split; [apply list_elem_of_In; exact Hin|].
    apply andb_true_iff in H as [_ H]. cbn [matchesCategory truthy] in H.
    rewrite negb_involutive, (bool_decide_false _ Hc) in H. cbn in H.
    apply bool_decide_eq_true in H. exact H.
Qed.

(** X25: the templates grid reads the same [isLoading] and [error] that a
    generation submission writes.  Once the store's [submitGeneration] has
    got a job id the grid shows the six skeletons, and when the backend has
    turned the request down it shows the error panel with "Failed to submit
    generation: " and the status text, whatever templates are loaded.  A
    template fetch that succeeds afterwards (the panel's Try Again) clears
    the error, and the panel is gone. *)
Theorem submission_takes_over_the_templates_grid fetch (args : list jsval)
    (st : Store.GenerationState) (searchTerm : jsstring) (selectedCategory : option jsstring) :
  let st' := (Store.submitGeneration fetch args st).1 in
  (forall jobId,
      returned (Api.submitGeneration fetch [arg 0 args; arg 1 args]) = inr jobId ->
      grid toLowerCase st' searchTerm selectedCategory = Skeletons 6)
  /\ (forall response,
        fetch (generate_request [arg 0 args; arg 1 args]) = inr response ->
        ok response = false ->
        grid toLowerCase st' searchTerm selectedCategory
        = ErrorPanel (js "Failed to submit generation: " ++ statusText response))
  /\ (forall ts,
        let retried := Store.fetchTemplates (inr ts) st' in
        Store.isLoading retried = false /\ Store.error retried = None
        /\ Store.templates retried = ts
        /\ forall message,
             grid toLowerCase retried searchTerm selectedCategory <> ErrorPanel message).
Proof.
  cbn zeta. split; [|split].
  - intros jobId H. unfold Store.submitGeneration. rewrite H. reflexivity.
  - intros response Hf Hok. unfold Store.submitGeneration, Api.submitGeneration.
    cbn [returned]. unfold generate_request in Hf. cbn [arg nth] in Hf |- *.
    rewrite Hf, Hok. reflexivity.
  - intros ts. split; [reflexivity|]. split; [reflexivity|]. split; [reflexivity|].
    intros message. unfold grid.
    cbn [Store.fetchTemplates Store.isLoading Store.error Store.templates].
    match goal with |- context [match ?x with [] => _ | _ :: _ => _ end] => destruct x end;
      discriminate.
Qed.
End WithCaseMapping.

Lemma category_buttons_find_templates_witness :
  ascii_lower [] = []
  /\ (js "3d" ∈ categories [Sample.render3d])
  /\ filteredTemplates ascii_lower [Sample.render3d] [] (Some (js "3d")) <> [].
Proof.
  assert (H : js "3d" ∈ categories [Sample.render3d]) by (vm_compute; left).
  split; [reflexivity|]. split; [exact H|].
  exact (proj1 (proj2 (proj2 (category_buttons_find_templates ascii_lower [Sample.render3d]
                                eq_refl))) (js "3d") H).
Defined.
End PageView.
